(** * Zenblog client SDK: fetch / error contract

    A shallow embedding of the two client factories of the SDK,
    [createClient] (public client, keyed by a blog id) and
    [createZenblogClient] (management client, keyed by an access token),
    together with the helpers they call.

    The TypeScript code is asynchronous but strictly sequential (every
    promise is awaited where it is created), so a call is modelled as a
    computation that reads the outside world (the HTTP transport and the
    presence of a [window] global), appends to a trace of observable events
    (console output, requests sent, bodies read) and either returns a value
    or throws. *)

From Stdlib Require Import ZArith String List Bool Lia.
From stdpp Require Import base option list gmap strings.

Open Scope string_scope.
Open Scope Z_scope.

#[local] Set Warnings "-register-all".

(** ** JavaScript values *)

(** Values that flow through the clients: what [JSON.parse] can produce,
    plus [undefined] (the result of reading a property that is not there).
    An object is kept as its list of own properties. Numbers are only ever
    carried around, never computed with. *)
Inductive jsval : Type :=
| JUndefined
| JNull
| JBool (b : bool)
| JNum (n : Z)
| JStr (s : string)
| JArr (elems : list jsval)
| JObj (fields : list (string * jsval)).

(** Thrown values. [Error msg] is the object built by [new Error(msg)]: its
    only own data is the message. [TypeError] is raised by the engine
    (property read on null, call of a non-function), [SyntaxError] by the
    JSON parser, and [NetworkError] is the rejection of [fetch] itself. *)
Inductive exn : Type :=
| Error (message : string)
| TypeError
| SyntaxError
| NetworkError (reason : string).

(** First own property called [k], as [assoc] on the property list. *)
Fixpoint own_prop (k : string) (fields : list (string * jsval)) : option jsval :=
  match fields with
  | nil => None
  | (k', v) :: rest => if String.eqb k k' then Some v else own_prop k rest
  end.

(** ** The fetch API *)

(** The [RequestInit] fields the clients set. [headers] is a plain object
    used as a map from header name to value. *)
Record RequestInit : Type := mkRequestInit {
  method : option string;
  cache : option string;
  req_headers : option (gmap string string)
}.

(** A [Response], as far as the clients look at it. [res_headers] is keyed by
    the lower-case header name, which is how [Headers.get] looks names up.
    [res_body] is the outcome of [res.json()]: [None] when the body is not
    valid JSON. *)
Record Response : Type := mkResponse {
  res_status : Z;
  res_statusText : string;
  res_headers : gmap string string;
  res_body : option jsval
}.

(** [Response.ok]: the status is in the range 200..299. *)
Definition res_ok (r : Response) : bool :=
  (200 <=? res_status r) && (res_status r <=? 299).

Definition headers_get (r : Response) (name : string) : option string :=
  res_headers r !! name.

(** What [fetch(url, opts)] settles to. *)
Inductive fetch_outcome : Type :=
| Rejected (e : exn)
| Responded (r : Response).

(** ** Observable events *)

(** Arguments handed to [console.log] / [console.error]. *)
Inductive logarg : Type :=
| LStr (s : string)
| LVal (v : jsval)
| LConfig (api : string)
| LReq (opts : RequestInit)
| LRes (r : Response)
| LResInfo (status : Z) (statusText : string) (ok : bool) (json : jsval)
| LExn (e : exn).

Inductive event : Type :=
| ConsoleLog (args : list logarg)
| ConsoleError (args : list logarg)
| Fetch (url : string) (opts : RequestInit)
| ReadJson (r : Response).

(** ** The computation monad *)

Record World : Type := mkWorld {
  transport : string -> RequestInit -> fetch_outcome;
  window_defined : bool
}.

Inductive outcome (A : Type) : Type :=
| Return (a : A)
| Throw (e : exn).
Arguments Return {A} a.
Arguments Throw {A} e.

Definition M (A : Type) : Type := World -> list event * outcome A.

Definition ret {A} (a : A) : M A := fun _ => (nil, Return a).

Definition bind {A B} (m : M A) (k : A -> M B) : M B :=
  fun w =>
    match m w with
    | (t1, Return a) => let '(t2, r) := k a w in ((t1 ++ t2)%list, r)
    | (t1, Throw e) => (t1, Throw e)
    end.

Definition throw {A} (e : exn) : M A := fun _ => (nil, Throw e).

Definition emit (ev : event) : M unit := fun _ => ((ev :: nil)%list, Return tt).

(** [try { body } catch (error) { handler(error) }] *)
Definition try_catch {A} (body : M A) (handler : exn -> M A) : M A :=
  fun w =>
    match body w with
    | (t1, Return a) => (t1, Return a)
    | (t1, Throw e) => let '(t2, r) := handler e w in ((t1 ++ t2)%list, r)
    end.

Notation "x <- m ;; k" := (bind m (fun x => k))
  (at level 100, m at next level, right associativity).
Notation "m ;; k" := (bind m (fun _ => k))
  (at level 100, right associativity).

(** [await fetch(url, opts)] *)
Definition fetch (url : string) (opts : RequestInit) : M Response :=
  fun w =>
    match transport w url opts with
    | Rejected e => ((Fetch url opts :: nil)%list, Throw e)
    | Responded r => ((Fetch url opts :: nil)%list, Return r)
    end.

(** [await res.json()] *)
Definition res_json (r : Response) : M jsval :=
  fun _ =>
    match res_body r with
    | Some j => ((ReadJson r :: nil)%list, Return j)
    | None => ((ReadJson r :: nil)%list, Throw SyntaxError)
    end.

Definition console_log (args : list logarg) : M unit := emit (ConsoleLog args).
Definition console_error (args : list logarg) : M unit := emit (ConsoleError args).

(** [typeof window !== "undefined"] *)
Definition typeof_window_defined : M bool := fun w => (nil, Return (window_defined w)).

(** Projections of a run. *)
Definition trace_of {A} (m : M A) (w : World) : list event := fst (m w).
Definition result_of {A} (m : M A) (w : World) : outcome A := snd (m w).

(** JavaScript truthiness of a string: every string but the empty one. *)
Definition truthy_str (s : string) : bool := negb (String.eqb s "").

(** [o || d] for an optional string [o]. *)
Definition or_str (o : option string) (d : string) : string :=
  match o with
  | Some s => if truthy_str s then s else d
  | None => d
  end.

(** [o || false] for an optional boolean [o]. *)
Definition or_false (o : option bool) : bool :=
  match o with
  | Some b => b
  | None => false
  end.

(** ** The public client (the source file that defines [createClient]) *)

Module Public.


(** The strings the helpers put in front of what they print and throw. *)
Definition log_tag : string := "[🍊] ".
Definition error_tag : string := "[🚨] ".

Definition logError (args : list logarg) : M unit :=
  console_error (LStr log_tag :: args)%list.

Definition createDebugger (debug : bool) (args : list logarg) : M unit :=
  if debug then console_log (LStr log_tag :: args)%list else ret tt.

Record Config : Type := mkConfig { api : string }.

Definition getConfig (url : option string) : Config :=
  match url with
  | Some u =>
      if truthy_str u then {| api := u |}
      else {| api := "https://zenblog.com/api/public" |}
  | None => {| api := "https://zenblog.com/api/public" |}
  end.

(** [throwError(msg, ...args)]: log, then throw a fresh [Error] that holds
    the tagged message only. It never returns. *)
Definition throwError {A} (msg : string) (args : list logarg) : M A :=
  logError (LStr msg :: args)%list ;;
  throw (Error (error_tag ++ msg)).

Record CreateClientOpts : Type := mkCreateClientOpts {
  blogId : string;
  _url : option string;
  debug : option bool
}.

Record Client : Type := mkClient {
  posts_getAll : M jsval;
  posts_getBySlug : string -> M jsval
}.

(** Reading property [k] of [v], for the property names the normalisation
    reads (none of them is an array index or a built-in member): null and
    undefined throw, an object gives its own property or [undefined], any
    other value gives [undefined]. *)
Definition get_prop (v : jsval) (k : string) : outcome jsval :=
  match v with
  | JUndefined | JNull => Throw TypeError
  | JObj fields =>
      Return (match own_prop k fields with Some x => x | None => JUndefined end)
  | _ => Return JUndefined
  end.

(** The callback of [posts.map] in [getAll]. *)
Definition normalizePost (post : jsval) : outcome jsval :=
  match get_prop post "slug" with
  | Throw e => Throw e
  | Return slug =>
  match get_prop post "title" with
  | Throw e => Throw e
  | Return title =>
  match get_prop post "created_at" with
  | Throw e => Throw e
  | Return created_at =>
  match get_prop post "updated_at" with
  | Throw e => Throw e
  | Return updated_at =>
  match get_prop post "cover_image" with
  | Throw e => Throw e
  | Return cover_image =>
      Return (JObj (("slug", slug) :: ("title", title)
                    :: ("created_at", created_at) :: ("updated_at", updated_at)
                    :: ("cover_image", cover_image) :: nil)%list)
  end end end end end.

(** [Array.prototype.map] with a callback that may throw: left to right,
    stopping at the first exception. *)
Fixpoint array_map (f : jsval -> outcome jsval) (xs : list jsval) : outcome (list jsval) :=
  match xs with
  | nil => Return nil
  | x :: rest =>
      match f x with
      | Throw e => Throw e
      | Return y =>
          match array_map f rest with
          | Throw e => Throw e
          | Return ys => Return (y :: ys)%list
          end
      end
  end.

(** [posts.map(cb)]: only an array has a [map] method to call. *)
Definition posts_map (posts : jsval) : M jsval :=
  match posts with
  | JArr xs =>
      match array_map normalizePost xs with
      | Return ys => ret (JArr ys)
      | Throw e => throw e
      end
  | _ => throw TypeError
  end.

Definition json_headers : gmap string string :=
  {[ "Content-Type" := "application/json" ]}.

Definition public_opts : RequestInit :=
  {| method := Some "GET"; cache := None; req_headers := Some json_headers |}.

Definition public_url (config : Config) (blogId path : string) : string :=
  api config ++ "/" ++ blogId ++ "/" ++ path.

(** The inner [_fetch] of [createClient], closed over [config], [blogId]
    and [log]. *)
Definition client_fetch (config : Config) (blogId : string)
    (log : list logarg -> M unit) (path : string) (opts : RequestInit) : M jsval :=
  let URL := public_url config blogId path in
  log (LStr "fetching " :: LStr URL :: LReq opts :: nil)%list ;;
  res <- fetch URL opts ;;
  json <- res_json res ;;
  log (LStr "res"
       :: LResInfo (res_status res) (res_statusText res) (res_ok res) json
       :: nil)%list ;;
  (if negb (res_ok res)
   then throwError "Error fetching data from API" (LRes res :: nil)%list
   else ret tt) ;;
  ret json.

Definition createClient (o : CreateClientOpts) : M Client :=
  let config := getConfig (_url o) in
  let log := createDebugger (or_false (debug o)) in
  log (LStr "createClient " :: LConfig (api config) :: nil)%list ;;
  let _fetch := client_fetch config (blogId o) log in
  (if negb (truthy_str (blogId o))
   then throwError "blogId is required" nil
   else ret tt) ;;
  ret {| posts_getAll :=
           posts <- _fetch "posts" public_opts ;;
           log (LStr "posts.getAll" :: LVal posts :: nil)%list ;;
           posts_map posts;
         posts_getBySlug := fun slug =>
           _fetch ("post/" ++ slug) public_opts |}.

End Public.

(** ** The management client ([packages/zenblog/src/index.ts]) *)

Module Zenblog.

(** Modelled from the spec: [createLogger], imported from [./lib], a module
    that is not among the sources. The spec describes one debug logging
    facility for both clients: "when enabled via configuration, every request
    and every response is logged to a side channel; this is observability
    only". It is taken to be the debugger of the public client. *)
Definition createLogger (debug : bool) (args : list logarg) : M unit :=
  Public.createDebugger debug args.

(** Modelled from the spec: [throwError], imported from [./lib], a module
    that is not among the sources. The spec describes the error raising
    helper as "a single shared routine" that "formats a message, performs
    the side-channel log, and throws a generic error object wrapping the
    message and any additional diagnostic payload (e.g., the raw
    response)". The one such routine among the sources is the [throwError]
    of the public client, and this definition follows it for the message
    and for the log. A thrown [Error] is represented by its message alone,
    so this definition does not say whether the helper of [./lib] also
    attaches the payload to the error object, as the spec's sentence has it:
    what is proved below about [list] and [get] is the order of their
    checks, the messages of their errors and what they print, never what an
    error object holds besides its message. *)
Definition throwError {A} (msg : string) (args : list logarg) : M A :=
  Public.throwError msg args.

Record FetcherConfig : Type := mkFetcherConfig {
  api : string;
  accessToken : string
}.

(** The two headers every request starts from. *)
Definition auth_headers (token : string) : gmap string string :=
  <[ "Content-Type" := "application/json" ]>
    (<[ "authorization" := "Bearer " ++ token ]> ∅).

(** Object spread [{...a, ...b}] on header objects: a property of [b]
    replaces the property of [a] with the same name. *)
Definition spread (a b : gmap string string) : gmap string string := b ∪ a.

(** [...opts.headers]: nothing is spread when [opts.headers] is undefined. *)
Definition headers_or_empty (h : option (gmap string string)) : gmap string string :=
  match h with
  | Some m => m
  | None => ∅
  end.

(** [{...opts, headers: {authorization, "Content-Type", ...opts.headers}}] *)
Definition reqOpts (config : FetcherConfig) (opts : RequestInit) : RequestInit :=
  {| method := method opts;
     cache := cache opts;
     req_headers :=
       Some (spread (auth_headers (accessToken config))
                    (headers_or_empty (req_headers opts))) |}.

Definition subscription_message : string :=
  "Zenblog subscription is inactive. Go to https://zenblog.com to subscribe.".

(** [res.headers.get("zenblog-subscription-status") === "inactive"] *)
Definition subscription_inactive (res : Response) : bool :=
  match headers_get res "zenblog-subscription-status" with
  | Some v => String.eqb v "inactive"
  | None => false
  end.

Definition fetch_url (config : FetcherConfig) (path : string) : string :=
  api config ++ "/" ++ path.

(** [createFetcher(config, log)], applied to [path] and [opts]. *)
Definition createFetcher (config : FetcherConfig) (log : list logarg -> M unit)
    (path : string) (opts : RequestInit) : M jsval :=
  try_catch
    (let URL := fetch_url config path in
     let reqOpts := reqOpts config opts in
     log (LStr "fetch " :: LStr URL :: LReq reqOpts :: nil)%list ;;
     res <- fetch URL reqOpts ;;
     json <- res_json res ;;
     (if subscription_inactive res
      then throwError subscription_message nil
      else ret tt) ;;
     log (LStr "res"
          :: LResInfo (res_status res) (res_statusText res) (res_ok res) json
          :: nil)%list ;;
     (if negb (res_ok res)
      then throwError "Error fetching data from API" (LRes res :: nil)%list
      else ret tt) ;;
     ret json)
    (fun error =>
       console_error (LStr "[Zenblog Error] " :: LExn error :: nil)%list ;;
       throw error).

Record CreateClientOpts : Type := mkCreateClientOpts {
  opt_accessToken : string;
  _url : option string;
  _debug : option bool
}.

Record ReqOpts : Type := mkReqOpts { opt_cache : option string }.

(** [opts?.cache || "default"] *)
Definition cache_or_default (opts : option ReqOpts) : string :=
  or_str (match opts with Some o => opt_cache o | None => None end) "default".

(** The [RequestInit] that [list] and [get] hand to the fetcher. *)
Definition call_opts (opts : option ReqOpts) : RequestInit :=
  {| method := Some "GET";
     cache := Some (cache_or_default opts);
     req_headers := None |}.

Record Client : Type := mkClient {
  posts_list : option ReqOpts -> M jsval;
  posts_get : string -> option ReqOpts -> M jsval
}.

Definition createZenblogClient (o : CreateClientOpts) : M Client :=
  win <- typeof_window_defined ;;
  (if win
   then throwError
          "Zenblog is not supported in the browser. Make sure you don't leak your access token."
          nil
   else ret tt) ;;
  (if negb (truthy_str (opt_accessToken o))
   then throwError "accessToken is required" nil
   else ret tt) ;;
  let logger := createLogger (or_false (_debug o)) in
  let fetcher :=
    createFetcher
      {| api := or_str (_url o) "https://api.zenblog.com";
         accessToken := opt_accessToken o |}
      logger in
  ret {| posts_list := fun opts =>
           posts <- fetcher "posts" (call_opts opts) ;;
           logger (LStr "posts.getAll" :: LVal posts :: nil)%list ;;
           ret posts;
         posts_get := fun slug opts =>
           post <- fetcher ("post/" ++ slug) (call_opts opts) ;;
           logger (LStr "posts.getBySlug" :: LVal post :: nil)%list ;;
           ret post |}.

End Zenblog.

(** ** Whole calls *)

(** Construct a client, then call one of its operations. *)
Definition call_getAll (o : Public.CreateClientOpts) : M jsval :=
  c <- Public.createClient o ;; Public.posts_getAll c.

Definition call_getBySlug (o : Public.CreateClientOpts) (slug : string) : M jsval :=
  c <- Public.createClient o ;; Public.posts_getBySlug c slug.

Definition call_list (o : Zenblog.CreateClientOpts) (opts : option Zenblog.ReqOpts) : M jsval :=
  c <- Zenblog.createZenblogClient o ;; Zenblog.posts_list c opts.

Definition call_get (o : Zenblog.CreateClientOpts) (slug : string)
    (opts : option Zenblog.ReqOpts) : M jsval :=
  c <- Zenblog.createZenblogClient o ;; Zenblog.posts_get c slug opts.

(** The endpoint a management client built from [o] talks to, the request
    options it sends for a call with [opts], and the fetcher it closes over. *)
Definition zenblog_api (o : Zenblog.CreateClientOpts) : string :=
  or_str (Zenblog._url o) "https://api.zenblog.com".

Definition zenblog_request (o : Zenblog.CreateClientOpts)
    (opts : option Zenblog.ReqOpts) : RequestInit :=
  Zenblog.reqOpts
    {| Zenblog.api := zenblog_api o; Zenblog.accessToken := Zenblog.opt_accessToken o |}
    (Zenblog.call_opts opts).

Definition zenblog_fetcher (o : Zenblog.CreateClientOpts) : string -> RequestInit -> M jsval :=
  Zenblog.createFetcher
    {| Zenblog.api := zenblog_api o; Zenblog.accessToken := Zenblog.opt_accessToken o |}
    (Zenblog.createLogger (or_false (Zenblog._debug o))).

(** The same options with another debug setting. *)
Definition public_with_debug (o : Public.CreateClientOpts) (d : option bool)
    : Public.CreateClientOpts :=
  {| Public.blogId := Public.blogId o; Public._url := Public._url o; Public.debug := d |}.

Definition zenblog_with_debug (o : Zenblog.CreateClientOpts) (d : option bool)
    : Zenblog.CreateClientOpts :=
  {| Zenblog.opt_accessToken := Zenblog.opt_accessToken o;
     Zenblog._url := Zenblog._url o; Zenblog._debug := d |}.

(** ** Reading traces *)

(** The requests a trace sends, in order. *)
Definition fetches (t : list event) : list (string * RequestInit) :=
  flat_map (fun ev => match ev with
                      | Fetch url opts => ((url, opts) :: nil)%list
                      | _ => nil
                      end) t.

(** A trace without its debug output ([console.log] lines). *)
Definition without_log (t : list event) : list event :=
  List.filter (fun ev => match ev with ConsoleLog _ => false | _ => true end) t.

(** Event [a] occurs in [t] strictly before an occurrence of [b]. *)
Definition before (a b : event) (t : list event) : Prop :=
  exists t1 t2 : list event, t = (t1 ++ a :: t2)%list /\ In b t2.

(** Two calls behave alike in world [w]: same returned value or thrown
    error, and the same trace once the debug output is dropped. *)
Definition same_behaviour (m1 m2 : M jsval) (w : World) : Prop :=
  result_of m1 w = result_of m2 w /\
  without_log (trace_of m1 w) = without_log (trace_of m2 w).

(** What a debugger created with flag [d] prints for [args]. *)
Definition dbg (d : bool) (args : list logarg) : list event :=
  if d then (ConsoleLog (LStr Public.log_tag :: args) :: nil)%list else nil.

(** What the [catch] block of the fetcher prints for [e]. *)
Definition caught (e : exn) : list event :=
  (ConsoleError (LStr "[Zenblog Error] " :: LExn e :: nil) :: nil)%list.

(** What [throwError msg args] prints. *)
Definition thrown (msg : string) (args : list logarg) : list event :=
  (ConsoleError (LStr Public.log_tag :: LStr msg :: args) :: nil)%list.

(** ** The errors of the clients *)

(** The generic request failure and the subscription failure, as thrown,
    and the [console.error] line each of them leaves. *)
Definition request_error : exn :=
  Error (Public.error_tag ++ "Error fetching data from API").

Definition subscription_error : exn :=
  Error (Public.error_tag ++ Zenblog.subscription_message).

Definition request_error_line (r : Response) : event :=
  ConsoleError (LStr Public.log_tag :: LStr "Error fetching data from API"
                :: LRes r :: nil)%list.

Definition subscription_error_line : event :=
  ConsoleError (LStr Public.log_tag :: LStr Zenblog.subscription_message :: nil)%list.

(** The two messages with which the management client refuses to be built. *)
Definition browser_message : string :=
  "Zenblog is not supported in the browser. Make sure you don't leak your access token.".

Definition token_message : string := "accessToken is required".

(** ** Responses *)

(** [transport w] answers every request with the response [r]. *)
Definition responds (w : World) (r : Response) : Prop :=
  forall url opts, transport w url opts = Responded r.

(** The subscription header of a response says "inactive". *)
Definition inactive_header (r : Response) : Prop :=
  headers_get r "zenblog-subscription-status" = Some "inactive".

(** The run of a management call to [path] whose response [r] carries the
    inactive header: the request, the read of the body, and then either the
    parser's error or the subscription error, each reported by the [catch]
    block. *)
Definition inactive_run (o : Zenblog.CreateClientOpts) (opts : option Zenblog.ReqOpts)
    (path : string) (r : Response) : list event * outcome jsval :=
  let URL := (zenblog_api o ++ "/" ++ path)%string in
  let req := zenblog_request o opts in
  let pre := (dbg (or_false (Zenblog._debug o))
                  (LStr "fetch " :: LStr URL :: LReq req :: nil)
              ++ Fetch URL req :: ReadJson r :: nil)%list in
  match res_body r with
  | None => ((pre ++ caught SyntaxError)%list, Throw SyntaxError)
  | Some _ =>
      ((pre ++ subscription_error_line :: caught subscription_error)%list,
       Throw subscription_error)
  end.

(** ** Post records *)

(** A post record as the [Post] type has it: an object whose [slug],
    [title], [created_at] and [updated_at] are strings and whose
    [cover_image], when present, is a string. Other properties are allowed. *)
Definition is_str (o : option jsval) : bool :=
  match o with
  | Some (JStr _) => true
  | _ => false
  end.

Definition valid_post (v : jsval) : bool :=
  match v with
  | JObj fields =>
      is_str (own_prop "slug" fields) && is_str (own_prop "title" fields)
      && is_str (own_prop "created_at" fields) && is_str (own_prop "updated_at" fields)
      && match own_prop "cover_image" fields with
         | None => true
         | Some (JStr _) => true
         | Some _ => false
         end
  | _ => false
  end.

(** The own property names of an object, and a property read that cannot
    throw (used on the objects [getAll] builds). *)
Definition keys (v : jsval) : list string :=
  match v with
  | JObj fields => List.map fst fields
  | _ => nil
  end.

Definition prop (v : jsval) (k : string) : jsval :=
  match Public.get_prop v k with
  | Return x => x
  | Throw _ => JUndefined
  end.

(** The names of the [Post] shape, and the [Post] built from a record [p]:
    these five properties, each with the value read from [p]. *)
Definition post_keys : list string :=
  ("slug" :: "title" :: "created_at" :: "updated_at" :: "cover_image" :: nil)%list.

Definition post_summary (p : jsval) : jsval :=
  JObj (List.map (fun k => (k, prop p k)) post_keys).

(** ** Concrete inputs used in the examples below *)

(** A server-side world whose transport answers every request with [r],
    and one without network. *)
Definition serving (r : Response) : World :=
  {| transport := fun _ _ => Responded r; window_defined := false |}.

Definition offline : World :=
  {| transport := fun _ _ => Rejected (NetworkError "offline");
     window_defined := false |}.

Definition no_token : Zenblog.CreateClientOpts :=
  {| Zenblog.opt_accessToken := ""; Zenblog._url := None; Zenblog._debug := None |}.

Definition with_token : Zenblog.CreateClientOpts :=
  {| Zenblog.opt_accessToken := "secret"; Zenblog._url := None; Zenblog._debug := None |}.

Definition my_blog : Public.CreateClientOpts :=
  {| Public.blogId := "blog1"; Public._url := None; Public.debug := None |}.

(** A 200 and a 404 response whose body is not JSON; a 404 and a 500
    response with a JSON body. *)
Definition malformed_200 : Response :=
  {| res_status := 200; res_statusText := "OK"; res_headers := ∅; res_body := None |}.


Definition not_found_404 : Response :=
  {| res_status := 404; res_statusText := "Not Found"; res_headers := ∅;
     res_body := Some (JObj (("message", JStr "not found") :: nil)%list) |}.


(** Responses that carry the inactive-subscription header: a 200 whose body
    is not JSON, and a 200 and a 402 with a JSON body. *)
Definition inactive_headers : gmap string string :=
  {[ "zenblog-subscription-status" := "inactive" ]}.

Definition inactive_malformed_200 : Response :=
  {| res_status := 200; res_statusText := "OK"; res_headers := inactive_headers;
     res_body := None |}.

Definition inactive_200 : Response :=
  {| res_status := 200; res_statusText := "OK"; res_headers := inactive_headers;
     res_body := Some (JArr nil) |}.

Definition inactive_402 : Response :=
  {| res_status := 402; res_statusText := "Payment Required";
     res_headers := inactive_headers;
     res_body := Some (JObj (("message", JStr "subscribe") :: nil)%list) |}.

(** Two post records as a server sends them: one with a cover image and a
    field the [Post] shape does not know, one without a cover image. *)
Definition first_post : jsval :=
  JObj (("slug", JStr "hello") :: ("title", JStr "Hello") :: ("content", JStr "<p>Hi</p>")
        :: ("created_at", JStr "2024-01-01") :: ("updated_at", JStr "2024-01-02")
        :: ("cover_image", JStr "https://img/1.png") :: nil)%list.

Definition second_post : jsval :=
  JObj (("slug", JStr "bye") :: ("title", JStr "Bye")
        :: ("created_at", JStr "2024-02-01") :: ("updated_at", JStr "2024-02-02")
        :: ("tags", JArr (JStr "a" :: nil)) :: nil)%list.

Definition two_posts_200 : Response :=
  {| res_status := 200; res_statusText := "OK"; res_headers := ∅;
     res_body := Some (JArr (first_post :: second_post :: nil)%list) |}.

(** ** Further vocabulary *)

(** [transport w] rejects every request with [e] (no connection, DNS
    failure, aborted request). *)
Definition rejects (w : World) (e : exn) : Prop :=
  forall url opts, transport w url opts = Rejected e.

(** A value whose properties can be read: anything but null and undefined. *)
Definition non_null (v : jsval) : bool :=
  match v with
  | JUndefined | JNull => false
  | _ => true
  end.

(** A trace prints to [console.error]. *)
Definition prints_error (t : list event) : Prop :=
  exists args : list logarg, In (ConsoleError args) t.

(** The debug setting is off: absent or false. *)
Definition debug_off (d : option bool) : Prop := or_false d = false.

(** A 200 response with a JSON body that is not an array, one whose array
    holds a null, and a world whose transport fails. *)
Definition object_200 : Response :=
  {| res_status := 200; res_statusText := "OK"; res_headers := ∅;
     res_body := Some (JObj (("posts", JArr nil) :: nil)%list) |}.

Definition null_in_array_200 : Response :=
  {| res_status := 200; res_statusText := "OK"; res_headers := ∅;
     res_body := Some (JArr (first_post :: JNull :: nil)%list) |}.

Definition browser : World :=
  {| transport := fun _ _ => Rejected (NetworkError "offline");
     window_defined := true |}.

(** ** Image file names ([apps/web/app/api/[...route]/route.ts])

    The handler of [POST /blogs/:blog_id/images] builds the storage key of
    an uploaded image from the [imageName] query parameter, the clock and
    the [convertToWebp] query parameter. The computation is pure apart from
    the clock, which is an argument here. *)

Module Images.

(** A JavaScript string as its UTF-16 code units; [units] spells an ASCII
    literal. *)
Definition units (s : string) : list N :=
  List.map Ascii.N_of_ascii (list_ascii_of_string s).

Definition hyphen : N := 45%N.

(** The character class [[a-z0-9]]. *)
Definition is_alnum (c : N) : bool :=
  ((97 <=? c)%N && (c <=? 122)%N) || ((48 <=? c)%N && (c <=? 57)%N).

(** [.replace(/[^a-z0-9]/g, "-")] *)
Definition replace_non_alnum (s : list N) : list N :=
  List.map (fun c => if is_alnum c then c else hyphen) s.

Definition starts_with_hyphen (s : list N) : bool :=
  match s with
  | c :: _ => (c =? hyphen)%N
  | nil => false
  end.

(** [.replace(/-+/g, "-")]: of a run of hyphens only one is kept. *)
Fixpoint collapse_hyphens (s : list N) : list N :=
  match s with
  | nil => nil
  | c :: rest =>
      if (c =? hyphen)%N && starts_with_hyphen rest
      then collapse_hyphens rest
      else (c :: collapse_hyphens rest)%list
  end.

(** [.replace(/^-|-$/g, "")]: a hyphen at the very start is removed, and
    so is a hyphen at the very end of what is left. *)
Definition strip_first (s : list N) : list N :=
  match s with
  | c :: rest => if (c =? hyphen)%N then rest else s
  | nil => nil
  end.

Fixpoint strip_last (s : list N) : list N :=
  match s with
  | nil => nil
  | c :: nil => if (c =? hyphen)%N then nil else (c :: nil)%list
  | c :: rest => (c :: strip_last rest)%list
  end.

Definition trim_hyphens (s : list N) : list N := strip_last (strip_first s).

(** [Number.prototype.toString] of a non-negative integer: its decimal
    digits. [to_digits] divides by ten at most [fuel] times;
    [number_toString] gives it one step per binary digit, which is enough
    ([to_digits_enough] below). *)
Fixpoint to_digits (fuel : nat) (n : N) : list N :=
  match fuel with
  | O => nil
  | S f =>
      if (n <? 10)%N then ((48 + n)%N :: nil)%list
      else (to_digits f (n / 10)%N ++ (48 + n mod 10)%N :: nil)%list
  end.

Definition number_toString (n : N) : list N :=
  to_digits (S (N.to_nat (N.log2 n))) n.

(** [s.slice(-k)]: the last [k] code units, all of [s] when it is shorter. *)
Definition slice_last (k : nat) (s : list N) : list N :=
  skipn (length s - k) s.

(** [Date.now().toString().slice(-6)], for the clock reading [now] in
    milliseconds. *)
Definition timestamp (now : N) : list N := slice_last 6 (number_toString now).

(** [c.req.query("convertToWebp") === "true"] *)
Definition convertToWebp (query : option string) : bool :=
  match query with
  | Some v => String.eqb v "true"
  | None => false
  end.

Section WithToLowerCase.

(** [String.prototype.toLowerCase], whose Unicode case mapping is the
    platform's. *)
Variable toLowerCase : list N -> list N.

(** [providedName ? providedName.toLowerCase().replace(...)... : "image"] *)
Definition baseName (providedName : option (list N)) : list N :=
  match providedName with
  | Some (c :: rest) =>
      trim_hyphens (collapse_hyphens (replace_non_alnum (toLowerCase (c :: rest)%list)))
  | _ => units "image"
  end.

(** [`${baseName}-${timestamp}.${convertToWebp ? "webp" : "jpg"}`] *)
Definition fileName (providedName : option (list N)) (now : N) (webp : bool) : list N :=
  (baseName providedName ++ hyphen :: timestamp now
   ++ units "." ++ (if webp then units "webp" else units "jpg"))%list.

End WithToLowerCase.

(** Predicates on names. *)
Definition clean_char (c : N) : bool := is_alnum c || (c =? hyphen)%N.

Fixpoint double_hyphen (s : list N) : bool :=
  match s with
  | nil => false
  | c :: rest => ((c =? hyphen)%N && starts_with_hyphen rest) || double_hyphen rest
  end.

Fixpoint ends_with_hyphen (s : list N) : bool :=
  match s with
  | nil => false
  | c :: nil => (c =? hyphen)%N
  | _ :: rest => ends_with_hyphen rest
  end.

(** The [k] low decimal digits of [n], leading zeros included. *)
Fixpoint low_digits (k : nat) (n : N) : list N :=
  match k with
  | O => nil
  | S k' => (low_digits k' (n / 10)%N ++ (48 + n mod 10)%N :: nil)%list
  end.

(** The ASCII part of [toLowerCase]: [A-Z] to [a-z], anything else as it
    is. Used to run the examples. *)
Definition ascii_lower (s : list N) : list N :=
  List.map (fun c => if (65 <=? c)%N && (c <=? 90)%N then (c + 32)%N else c) s.

End Images.

(** ** Helper lemmas: what one request does *)

Lemma fetches_app (t1 t2 : list event) :
  fetches (t1 ++ t2) = (fetches t1 ++ fetches t2)%list.
Proof. unfold fetches. apply flat_map_app. Qed.

Lemma without_log_app (t1 t2 : list event) :
  without_log (t1 ++ t2) = (without_log t1 ++ without_log t2)%list.
Proof. unfold without_log. apply List.filter_app. Qed.

Lemma createDebugger_run d args w :
  Public.createDebugger d args w = (dbg d args, Return tt).
Proof. destruct d; reflexivity. Qed.

Lemma client_fetch_run d config bid path opts w :
  Public.client_fetch config bid (Public.createDebugger d) path opts w =
  let URL := Public.public_url config bid path in
  let pre := (dbg d (LStr "fetching " :: LStr URL :: LReq opts :: nil)
              ++ Fetch URL opts :: nil)%list in
  match transport w URL opts with
  | Rejected e => (pre, Throw e)
  | Responded r =>
      match res_body r with
      | None => ((pre ++ ReadJson r :: nil)%list, Throw SyntaxError)
      | Some j =>
          let seen := (pre ++ ReadJson r
                       :: dbg d (LStr "res"
                                 :: LResInfo (res_status r) (res_statusText r) (res_ok r) j
                                 :: nil))%list in
          if res_ok r then (seen, Return j)
          else ((seen ++ thrown "Error fetching data from API" (LRes r :: nil))%list,
                Throw request_error)
      end
  end.
Proof.
  unfold Public.client_fetch, bind, fetch, res_json.
  rewrite createDebugger_run. cbn.
  destruct (transport w _ opts) as [e | r]; cbn.
  - destruct d; reflexivity.
  - destruct (res_body r) as [j |]; cbn.
    + rewrite createDebugger_run.
      destruct (res_ok r); destruct d; reflexivity.
    + destruct d; reflexivity.
Qed.

Lemma createFetcher_run d config path opts w :
  Zenblog.createFetcher config (Zenblog.createLogger d) path opts w =
  let URL := Zenblog.fetch_url config path in
  let req := Zenblog.reqOpts config opts in
  let pre := (dbg d (LStr "fetch " :: LStr URL :: LReq req :: nil)
              ++ Fetch URL req :: nil)%list in
  match transport w URL req with
  | Rejected e => ((pre ++ caught e)%list, Throw e)
  | Responded r =>
      match res_body r with
      | None => ((pre ++ ReadJson r :: caught SyntaxError)%list, Throw SyntaxError)
      | Some j =>
          if Zenblog.subscription_inactive r
          then ((pre ++ ReadJson r
                 :: thrown Zenblog.subscription_message nil
                 ++ caught subscription_error)%list,
                Throw subscription_error)
          else
            let seen := (pre ++ ReadJson r
                         :: dbg d (LStr "res"
                                   :: LResInfo (res_status r) (res_statusText r)
                                               (res_ok r) j
                                   :: nil))%list in
            if res_ok r then (seen, Return j)
            else ((seen ++ thrown "Error fetching data from API" (LRes r :: nil)
                   ++ caught request_error)%list,
                  Throw request_error)
      end
  end.
Proof.
  unfold Zenblog.createFetcher, Zenblog.createLogger, try_catch, bind, fetch, res_json.
  rewrite createDebugger_run. cbn.
  destruct (transport w _ _) as [e | r]; cbn.
  - destruct d; reflexivity.
  - destruct (res_body r) as [j |]; cbn.
    + destruct (Zenblog.subscription_inactive r); cbn.
      * destruct d; reflexivity.
      * rewrite createDebugger_run.
        destruct (res_ok r); destruct d; reflexivity.
    + destruct d; reflexivity.
Qed.

Lemma truthy_str_false s : truthy_str s = false <-> s = "".
Proof.
  unfold truthy_str. rewrite negb_false_iff. apply String.eqb_eq.
Qed.

Lemma truthy_str_true s : truthy_str s = true <-> s <> "".
Proof.
  unfold truthy_str. rewrite negb_true_iff. apply String.eqb_neq.
Qed.

Lemma createClient_run o w :
  Public.createClient o w =
  let config := Public.getConfig (Public._url o) in
  let log := Public.createDebugger (or_false (Public.debug o)) in
  let pre := dbg (or_false (Public.debug o))
                 (LStr "createClient " :: LConfig (Public.api config) :: nil) in
  if truthy_str (Public.blogId o)
  then (pre,
        Return {| Public.posts_getAll :=
                    posts <- Public.client_fetch config (Public.blogId o) log
                               "posts" Public.public_opts ;;
                    log (LStr "posts.getAll" :: LVal posts :: nil)%list ;;
                    Public.posts_map posts;
                  Public.posts_getBySlug := fun slug =>
                    Public.client_fetch config (Public.blogId o) log
                      ("post/" ++ slug) Public.public_opts |})
  else ((pre ++ thrown "blogId is required" nil)%list,
        Throw (Error (Public.error_tag ++ "blogId is required"))).
Proof.
  unfold Public.createClient, bind. rewrite createDebugger_run. cbn.
  destruct (truthy_str (Public.blogId o)); cbn.
  - rewrite app_nil_r. reflexivity.
  - reflexivity.
Qed.

Lemma posts_map_fetches posts w :
  fetches (fst (Public.posts_map posts w)) = nil.
Proof.
  destruct posts; try reflexivity.
  cbn. destruct (Public.array_map _ _); reflexivity.
Qed.

Lemma client_fetch_fetches d config bid path opts w :
  fetches (fst (Public.client_fetch config bid (Public.createDebugger d) path opts w))
  = ((Public.public_url config bid path, opts) :: nil)%list.
Proof.
  rewrite client_fetch_run. cbn zeta.
  destruct (transport w _ opts) as [e | r];
    [| destruct (res_body r) as [j |]; [destruct (res_ok r) |]];
    destruct d; reflexivity.
Qed.

Lemma getAll_fetches d config bid w :
  fetches (fst ((posts <- Public.client_fetch config bid (Public.createDebugger d)
                            "posts" Public.public_opts ;;
                 Public.createDebugger d (LStr "posts.getAll" :: LVal posts :: nil)%list ;;
                 Public.posts_map posts) w))
  = ((Public.public_url config bid "posts", Public.public_opts) :: nil)%list.
Proof.
  unfold bind.
  pose proof (client_fetch_fetches d config bid "posts" Public.public_opts w) as F.
  destruct (Public.client_fetch _ _ _ _ _ w) as [t [j | e]];
    cbn [fst] in *; [| exact F].
  rewrite createDebugger_run.
  pose proof (posts_map_fetches j w) as P.
  destruct (Public.posts_map j w) as [t2 r2]; cbn [fst] in *.
  rewrite !fetches_app, F, P. destruct d; reflexivity.
Qed.

(** C9. Constructing the public client sends no request. It throws exactly
    when the blog id is empty, with the "blogId is required" error;
    otherwise it returns a client whose every operation sends its one request
    to [api/blogId/path]. *)
Theorem createClient_blogId_required (o : Public.CreateClientOpts) (w : World) :
  fetches (trace_of (Public.createClient o) w) = nil /\
  match result_of (Public.createClient o) w with
  | Throw e =>
      Public.blogId o = "" /\ e = Error (Public.error_tag ++ "blogId is required")
  | Return c =>
      Public.blogId o <> "" /\
      forall w' : World,
        fetches (trace_of (Public.posts_getAll c) w')
        = (((Public.api (Public.getConfig (Public._url o)) ++ "/" ++ Public.blogId o
             ++ "/" ++ "posts")%string, Public.public_opts) :: nil)%list /\
        forall slug : string,
          fetches (trace_of (Public.posts_getBySlug c slug) w')
          = (((Public.api (Public.getConfig (Public._url o)) ++ "/" ++ Public.blogId o
               ++ "/" ++ "post/" ++ slug)%string, Public.public_opts) :: nil)%list
  end.
Proof.
  unfold trace_of, result_of. rewrite createClient_run. cbn zeta.
  destruct (truthy_str (Public.blogId o)) eqn:B; cbn [fst snd].
  - split; [destruct (or_false _); reflexivity |].
    split; [apply truthy_str_true; exact B |].
    intros w'. cbn [Public.posts_getAll Public.posts_getBySlug]. split.
    + apply getAll_fetches.
    + intros slug. apply client_fetch_fetches.
  - split; [destruct (or_false _); reflexivity |].
    split; [apply truthy_str_false; exact B | reflexivity].
Qed.

Lemma createZenblogClient_run o w :
  Zenblog.createZenblogClient o w =
  let logger := Zenblog.createLogger (or_false (Zenblog._debug o)) in
  if window_defined w
  then (thrown browser_message nil, Throw (Error (Public.error_tag ++ browser_message)))
  else if truthy_str (Zenblog.opt_accessToken o)
  then (nil,
        Return {| Zenblog.posts_list := fun opts =>
                    posts <- zenblog_fetcher o "posts" (Zenblog.call_opts opts) ;;
                    logger (LStr "posts.getAll" :: LVal posts :: nil)%list ;;
                    ret posts;
                  Zenblog.posts_get := fun slug opts =>
                    post <- zenblog_fetcher o ("post/" ++ slug) (Zenblog.call_opts opts) ;;
                    logger (LStr "posts.getBySlug" :: LVal post :: nil)%list ;;
                    ret post |})
  else (thrown token_message nil, Throw (Error (Public.error_tag ++ token_message))).
Proof.
  unfold Zenblog.createZenblogClient, bind, typeof_window_defined.
  destruct (window_defined w); [reflexivity |].
  destruct (truthy_str (Zenblog.opt_accessToken o)); reflexivity.
Qed.

(** C5. With a [window] global defined, or with an empty access token,
    [createZenblogClient] throws its configuration error during construction:
    the trace of the construction holds no request, and neither does the
    trace of a construction followed by a call. *)
Theorem createZenblogClient_fails_fast (o : Zenblog.CreateClientOpts) (w : World) :
  window_defined w = true \/ Zenblog.opt_accessToken o = "" ->
  (exists msg : string,
      (msg = browser_message \/ msg = token_message) /\
      result_of (Zenblog.createZenblogClient o) w
      = Throw (Error (Public.error_tag ++ msg))) /\
  fetches (trace_of (Zenblog.createZenblogClient o) w) = nil /\
  (forall opts, fetches (trace_of (call_list o opts) w) = nil) /\
  (forall slug opts, fetches (trace_of (call_get o slug opts) w) = nil).
Proof.
  intros H. unfold trace_of, result_of, call_list, call_get, bind.
  rewrite createZenblogClient_run. cbn zeta.
  destruct (window_defined w) eqn:W.
  - split; [exists browser_message; split; [left |]; reflexivity |].
    repeat split; reflexivity.
  - destruct H as [H | H]; [discriminate |].
    apply truthy_str_false in H. rewrite H.
    split; [exists token_message; split; [right |]; reflexivity |].
    repeat split; reflexivity.
Qed.

Lemma createZenblogClient_fails_fast_witness :
  (exists msg : string,
      (msg = browser_message \/ msg = token_message) /\
      result_of (Zenblog.createZenblogClient no_token) offline
      = Throw (Error (Public.error_tag ++ msg))) /\
  fetches (trace_of (Zenblog.createZenblogClient no_token) offline) = nil /\
  (forall opts, fetches (trace_of (call_list no_token opts) offline) = nil) /\
  (forall slug opts, fetches (trace_of (call_get no_token slug opts) offline) = nil).
Proof.
  apply (createZenblogClient_fails_fast no_token offline). right. reflexivity.
Defined.

(** *** Calls on a client that was built successfully *)

Lemma call_getBySlug_run o slug w :
  truthy_str (Public.blogId o) = true ->
  call_getBySlug o slug w =
  let d := or_false (Public.debug o) in
  let config := Public.getConfig (Public._url o) in
  let run := Public.client_fetch config (Public.blogId o) (Public.createDebugger d)
               ("post/" ++ slug) Public.public_opts w in
  ((dbg d (LStr "createClient " :: LConfig (Public.api config) :: nil) ++ fst run)%list,
   snd run).
Proof.
  intros B. unfold call_getBySlug, bind. rewrite createClient_run. cbn zeta.
  rewrite B. cbn [Public.posts_getBySlug].
  destruct (Public.client_fetch _ _ _ _ _ w); reflexivity.
Qed.

Lemma call_getAll_run o w :
  truthy_str (Public.blogId o) = true ->
  call_getAll o w =
  let d := or_false (Public.debug o) in
  let config := Public.getConfig (Public._url o) in
  let run := (posts <- Public.client_fetch config (Public.blogId o)
                         (Public.createDebugger d) "posts" Public.public_opts ;;
              Public.createDebugger d (LStr "posts.getAll" :: LVal posts :: nil)%list ;;
              Public.posts_map posts) w in
  ((dbg d (LStr "createClient " :: LConfig (Public.api config) :: nil) ++ fst run)%list,
   snd run).
Proof.
  intros B. unfold call_getAll. unfold bind at 1. rewrite createClient_run. cbn zeta.
  rewrite B. cbn [Public.posts_getAll].
  match goal with |- (let '(_, _) := ?X in _) = _ => destruct X end. reflexivity.
Qed.

Lemma call_get_run o slug opts w :
  window_defined w = false ->
  truthy_str (Zenblog.opt_accessToken o) = true ->
  call_get o slug opts w =
  (post <- zenblog_fetcher o ("post/" ++ slug) (Zenblog.call_opts opts) ;;
   Zenblog.createLogger (or_false (Zenblog._debug o))
     (LStr "posts.getBySlug" :: LVal post :: nil)%list ;;
   ret post) w.
Proof.
  intros W T. unfold call_get. unfold bind at 1. rewrite createZenblogClient_run.
  cbn zeta. rewrite W, T. cbn [Zenblog.posts_get].
  match goal with |- (let '(_, _) := ?X in _) = _ => destruct X end. reflexivity.
Qed.

Lemma call_list_run o opts w :
  window_defined w = false ->
  truthy_str (Zenblog.opt_accessToken o) = true ->
  call_list o opts w =
  (posts <- zenblog_fetcher o "posts" (Zenblog.call_opts opts) ;;
   Zenblog.createLogger (or_false (Zenblog._debug o))
     (LStr "posts.getAll" :: LVal posts :: nil)%list ;;
   ret posts) w.
Proof.
  intros W T. unfold call_list. unfold bind at 1. rewrite createZenblogClient_run.
  cbn zeta. rewrite W, T. cbn [Zenblog.posts_list].
  match goal with |- (let '(_, _) := ?X in _) = _ => destruct X end. reflexivity.
Qed.

(** A fetcher call followed by the logger line of [list] / [get]. *)
Lemma fetcher_then_log_run o path ropts label w :
  (v <- zenblog_fetcher o path ropts ;;
   Zenblog.createLogger (or_false (Zenblog._debug o)) (LStr label :: LVal v :: nil)%list ;;
   ret v) w =
  let run := zenblog_fetcher o path ropts w in
  match snd run with
  | Return v =>
      ((fst run ++ dbg (or_false (Zenblog._debug o)) (LStr label :: LVal v :: nil))%list,
       Return v)
  | Throw e => (fst run, Throw e)
  end.
Proof.
  unfold bind. destruct (zenblog_fetcher o path ropts w) as [t [v | e]]; cbn.
  - unfold Zenblog.createLogger. rewrite createDebugger_run. cbn.
    rewrite app_nil_r. reflexivity.
  - reflexivity.
Qed.

Lemma fetcher_fetches o path ropts w :
  fetches (fst (zenblog_fetcher o path ropts w))
  = ((Zenblog.fetch_url
        {| Zenblog.api := zenblog_api o; Zenblog.accessToken := Zenblog.opt_accessToken o |}
        path,
      Zenblog.reqOpts
        {| Zenblog.api := zenblog_api o; Zenblog.accessToken := Zenblog.opt_accessToken o |}
        ropts) :: nil)%list.
Proof.
  unfold zenblog_fetcher. rewrite createFetcher_run. cbn zeta.
  destruct (transport w _ _) as [e | r];
    [| destruct (res_body r) as [j |];
       [destruct (Zenblog.subscription_inactive r); [| destruct (res_ok r)] |]];
    destruct (or_false (Zenblog._debug o)); reflexivity.
Qed.

(** C10. Neither single-post fetch looks at the slug: for every string
    [slug], the empty one included, a successfully built client sends
    exactly one request, to the path [post/slug]. *)
Theorem slug_not_validated (po : Public.CreateClientOpts) (zo : Zenblog.CreateClientOpts)
    (slug : string) (opts : option Zenblog.ReqOpts) (w : World) :
  Public.blogId po <> "" ->
  window_defined w = false ->
  Zenblog.opt_accessToken zo <> "" ->
  fetches (trace_of (call_getBySlug po slug) w)
  = (((Public.api (Public.getConfig (Public._url po)) ++ "/" ++ Public.blogId po
       ++ "/" ++ "post/" ++ slug)%string, Public.public_opts) :: nil)%list /\
  fetches (trace_of (call_get zo slug opts) w)
  = (((zenblog_api zo ++ "/" ++ "post/" ++ slug)%string, zenblog_request zo opts)
       :: nil)%list.
Proof.
  intros B W T. apply truthy_str_true in B, T. unfold trace_of. split.
  - rewrite call_getBySlug_run by exact B. cbn zeta. cbn [fst].
    rewrite fetches_app, client_fetch_fetches.
    destruct (or_false (Public.debug po)); reflexivity.
  - rewrite call_get_run by assumption. rewrite fetcher_then_log_run. cbn zeta.
    pose proof (fetcher_fetches zo ("post/" ++ slug) (Zenblog.call_opts opts) w) as F.
    destruct (zenblog_fetcher zo _ _ w) as [t [v | e]]; cbn [fst snd] in *.
    + rewrite fetches_app, F. destruct (or_false (Zenblog._debug zo)); reflexivity.
    + exact F.
Qed.

Lemma slug_not_validated_witness :
  fetches (trace_of (call_getBySlug my_blog "") offline)
  = (("https://zenblog.com/api/public/blog1/post/", Public.public_opts) :: nil)%list /\
  fetches (trace_of (call_get with_token "" None) offline)
  = (("https://api.zenblog.com/post/", zenblog_request with_token None) :: nil)%list.
Proof.
  apply (slug_not_validated my_blog with_token "" None offline).
  - discriminate.
  - reflexivity.
  - discriminate.
Defined.

Lemma createFetcher_fetches config d path opts w :
  fetches (fst (Zenblog.createFetcher config (Zenblog.createLogger d) path opts w))
  = ((Zenblog.fetch_url config path, Zenblog.reqOpts config opts) :: nil)%list.
Proof.
  rewrite createFetcher_run. cbn zeta.
  destruct (transport w _ _) as [e | r];
    [| destruct (res_body r) as [j |];
       [destruct (Zenblog.subscription_inactive r); [| destruct (res_ok r)] |]];
    destruct d; reflexivity.
Qed.

Lemma auth_headers_lookup token name :
  Zenblog.auth_headers token !! name =
  if String.eqb name "authorization" then Some ("Bearer " ++ token)
  else if String.eqb name "Content-Type" then Some "application/json"
  else None.
Proof.
  unfold Zenblog.auth_headers.
  destruct (String.eqb_spec name "Content-Type") as [-> | N1].
  - rewrite lookup_insert_eq. reflexivity.
  - rewrite lookup_insert_ne by congruence.
    destruct (String.eqb_spec name "authorization") as [-> | N2].
    + rewrite lookup_insert_eq. reflexivity.
    + rewrite lookup_insert_ne by congruence. apply lookup_empty.
Qed.

(** C6. Every request of the management fetcher goes out with the method
    and cache of the call and with the headers
    [{authorization: "Bearer " + accessToken, "Content-Type": "application/json"}]
    merged with the headers object of the call, when the call has one: a
    header the call names is sent with the call's value, also when it is
    one of the two injected names, and any other header is sent with the
    injected default. *)
Theorem fetcher_headers_merged (config : Zenblog.FetcherConfig) (d : bool)
    (path : string) (opts : RequestInit) (w : World) :
  exists sent : gmap string string,
    fetches (trace_of (Zenblog.createFetcher config (Zenblog.createLogger d) path opts) w)
    = ((Zenblog.fetch_url config path,
        {| method := method opts; cache := cache opts; req_headers := Some sent |})
         :: nil)%list /\
    forall name : string,
      sent !! name =
      match req_headers opts with
      | Some per_call =>
          match per_call !! name with
          | Some v => Some v
          | None =>
              if String.eqb name "authorization"
              then Some ("Bearer " ++ Zenblog.accessToken config)
              else if String.eqb name "Content-Type" then Some "application/json"
              else None
          end
      | None =>
          if String.eqb name "authorization"
          then Some ("Bearer " ++ Zenblog.accessToken config)
          else if String.eqb name "Content-Type" then Some "application/json"
          else None
      end.
Proof.
  exists (Zenblog.spread (Zenblog.auth_headers (Zenblog.accessToken config))
                         (Zenblog.headers_or_empty (req_headers opts))).
  split.
  - unfold trace_of. rewrite createFetcher_fetches. reflexivity.
  - intros name. unfold Zenblog.spread, Zenblog.headers_or_empty.
    rewrite lookup_union, auth_headers_lookup.
    destruct (req_headers opts) as [per_call |].
    + destruct (per_call !! name) as [v |];
        destruct (String.eqb name "authorization");
        try destruct (String.eqb name "Content-Type"); reflexivity.
    + rewrite lookup_empty.
      destruct (String.eqb name "authorization");
        try destruct (String.eqb name "Content-Type"); reflexivity.
Qed.

(** A call that brings its own [authorization] and one more header: the
    call's [authorization] replaces the bearer token, the extra header is
    added, and the injected content type stays. *)
Example fetcher_headers_override :
  fetches (trace_of
             (Zenblog.createFetcher
                {| Zenblog.api := "https://api.zenblog.com"; Zenblog.accessToken := "secret" |}
                (Zenblog.createLogger false) "posts"
                {| method := Some "GET"; cache := None;
                   req_headers := Some (<[ "authorization" := "Basic abc" ]>
                                          (<[ "x-trace" := "1" ]> ∅)) |})
             offline)
  = (("https://api.zenblog.com/posts",
      {| method := Some "GET"; cache := None;
         req_headers := Some (<[ "authorization" := "Basic abc" ]>
                                (<[ "Content-Type" := "application/json" ]>
                                   (<[ "x-trace" := "1" ]> ∅))) |}) :: nil)%list.
Proof. vm_compute. reflexivity. Qed.

(** *** Calls against a transport that answers with one response *)

Lemma array_map_normalize_throws xs e :
  Public.array_map Public.normalizePost xs = Throw e -> e = TypeError.
Proof.
  induction xs as [| x rest IH]; cbn; [discriminate |].
  destruct (Public.normalizePost x) as [y | e'] eqn:N.
  - destruct (Public.array_map Public.normalizePost rest) as [ys | e''];
      [discriminate |].
    intros [= <-]. apply IH. reflexivity.
  - intros [= <-]. destruct x; cbn in N; congruence.
Qed.

Lemma posts_map_throws posts w e :
  snd (Public.posts_map posts w) = Throw e -> e = TypeError.
Proof.
  destruct posts; cbn; try congruence.
  destruct (Public.array_map Public.normalizePost elems) as [ys | e'] eqn:A; cbn.
  - discriminate.
  - intros [= <-]. apply (array_map_normalize_throws _ _ A).
Qed.

Lemma request_error_not_subscription : subscription_error <> request_error.
Proof. intros H. vm_compute in H. discriminate. Qed.

Lemma Throw_inj {A} (e1 e2 : exn) : @Throw A e1 = Throw e2 -> e1 = e2.
Proof. intros H. injection H as H. exact H. Qed.

Lemma before_intro (a b : event) (t1 t2 : list event) :
  In b t2 -> before a b (t1 ++ a :: t2).
Proof. intros H. exists t1, t2. split; [reflexivity | exact H]. Qed.

Lemma before_app_l (a b : event) (pre t : list event) :
  before a b t -> before a b (pre ++ t).
Proof.
  intros (t1 & t2 & -> & H). exists (pre ++ t1)%list, t2.
  split; [apply app_assoc | exact H].
Qed.

Lemma before_app_r (a b : event) (t post : list event) :
  before a b t -> before a b (t ++ post).
Proof.
  intros (t1 & t2 & -> & H). exists t1, (t2 ++ post)%list.
  split; [rewrite <- app_assoc; reflexivity | apply in_or_app; left; exact H].
Qed.

Lemma before_mid (a b : event) (pre mid post : list event) :
  In b post -> before a b ((pre ++ a :: mid) ++ post).
Proof.
  intros H. exists pre, (mid ++ post)%list. split.
  - rewrite <- app_assoc. reflexivity.
  - apply in_or_app. right. exact H.
Qed.

Lemma client_fetch_responds d config bid path opts w r :
  responds w r ->
  let run := Public.client_fetch config bid (Public.createDebugger d) path opts w in
  (res_body r = None -> snd run = Throw SyntaxError) /\
  (forall j, res_body r = Some j -> res_ok r = true -> snd run = Return j) /\
  (forall j, res_body r = Some j -> res_ok r = false -> snd run = Throw request_error) /\
  (snd run = Throw request_error ->
   (exists j, res_body r = Some j) /\ res_ok r = false /\
   before (ReadJson r) (request_error_line r) (fst run)).
Proof.
  intros R. unfold responds in R. cbn zeta. rewrite client_fetch_run. cbn zeta. rewrite R.
  destruct (res_body r) as [j |]; [destruct (res_ok r) |]; cbn [fst snd].
  - split; [discriminate |]. split; [intros j' [= <-] _; reflexivity |].
    split; [discriminate |]. discriminate.
  - split; [discriminate |]. split; [discriminate |]. split; [reflexivity |].
    intros _. split; [eauto |]. split; [reflexivity |].
    apply before_mid. left. reflexivity.
  - split; [reflexivity |]. split; [discriminate |]. split; [discriminate |].
    discriminate.
Qed.

Lemma fetcher_responds o path ropts w r :
  responds w r ->
  let run := zenblog_fetcher o path ropts w in
  (res_body r = None -> snd run = Throw SyntaxError) /\
  (forall j, res_body r = Some j -> Zenblog.subscription_inactive r = true ->
             snd run = Throw subscription_error) /\
  (forall j, res_body r = Some j -> Zenblog.subscription_inactive r = false ->
             res_ok r = true -> snd run = Return j) /\
  (forall j, res_body r = Some j -> Zenblog.subscription_inactive r = false ->
             res_ok r = false -> snd run = Throw request_error) /\
  (snd run = Throw request_error ->
   (exists j, res_body r = Some j) /\ res_ok r = false /\
   Zenblog.subscription_inactive r = false /\
   before (ReadJson r) (request_error_line r) (fst run)).
Proof.
  intros R. unfold responds in R. cbn zeta. unfold zenblog_fetcher.
  rewrite createFetcher_run. cbn zeta. rewrite R.
  destruct (res_body r) as [j |];
    [destruct (Zenblog.subscription_inactive r); [| destruct (res_ok r)] |];
    cbn [fst snd].
  - split; [discriminate |]. split; [reflexivity |].
    split; [discriminate |]. split; [discriminate |].
    intros H. exfalso. apply request_error_not_subscription.
    apply (Throw_inj (A := jsval)). exact H.
  - split; [discriminate |]. split; [discriminate |].
    split; [intros j' [= <-] _ _; reflexivity |].
    split; discriminate.
  - split; [discriminate |]. split; [discriminate |]. split; [discriminate |].
    split; [reflexivity |].
    intros _. split; [eauto |]. split; [reflexivity |]. split; [reflexivity |].
    apply before_mid. left. reflexivity.
  - split; [reflexivity |]. repeat (split; [discriminate |]). discriminate.
Qed.

Lemma getAll_body_run d config bid w :
  (posts <- Public.client_fetch config bid (Public.createDebugger d)
              "posts" Public.public_opts ;;
   Public.createDebugger d (LStr "posts.getAll" :: LVal posts :: nil)%list ;;
   Public.posts_map posts) w =
  let run := Public.client_fetch config bid (Public.createDebugger d)
               "posts" Public.public_opts w in
  match snd run with
  | Return j =>
      ((fst run ++ dbg d (LStr "posts.getAll" :: LVal j :: nil)
        ++ fst (Public.posts_map j w))%list,
       snd (Public.posts_map j w))
  | Throw e => (fst run, Throw e)
  end.
Proof.
  unfold bind. destruct (Public.client_fetch _ _ _ _ _ w) as [t [j | e]]; cbn [fst snd].
  - rewrite createDebugger_run. destruct (Public.posts_map j w). reflexivity.
  - reflexivity.
Qed.

(** The four calls, on clients that were built successfully, reduced to the
    request they make. *)
Lemma getBySlug_result o slug w :
  Public.blogId o <> "" ->
  result_of (call_getBySlug o slug) w
  = snd (Public.client_fetch (Public.getConfig (Public._url o)) (Public.blogId o)
           (Public.createDebugger (or_false (Public.debug o)))
           ("post/" ++ slug) Public.public_opts w).
Proof.
  intros B. apply truthy_str_true in B. unfold result_of.
  rewrite call_getBySlug_run by exact B. reflexivity.
Qed.

Lemma getAll_result o w :
  Public.blogId o <> "" ->
  result_of (call_getAll o) w
  = match snd (Public.client_fetch (Public.getConfig (Public._url o)) (Public.blogId o)
                 (Public.createDebugger (or_false (Public.debug o)))
                 "posts" Public.public_opts w) with
    | Return j => snd (Public.posts_map j w)
    | Throw e => Throw e
    end.
Proof.
  intros B. apply truthy_str_true in B. unfold result_of.
  rewrite call_getAll_run by exact B. cbn zeta. rewrite getAll_body_run. cbn zeta.
  destruct (snd (Public.client_fetch _ _ _ _ _ w)); reflexivity.
Qed.

Lemma get_result o slug opts w :
  window_defined w = false ->
  Zenblog.opt_accessToken o <> "" ->
  result_of (call_get o slug opts) w
  = snd (zenblog_fetcher o ("post/" ++ slug) (Zenblog.call_opts opts) w).
Proof.
  intros W T. apply truthy_str_true in T. unfold result_of.
  rewrite call_get_run by assumption. rewrite fetcher_then_log_run. cbn zeta.
  destruct (snd (zenblog_fetcher _ _ _ w)); reflexivity.
Qed.

Lemma list_result o opts w :
  window_defined w = false ->
  Zenblog.opt_accessToken o <> "" ->
  result_of (call_list o opts) w
  = snd (zenblog_fetcher o "posts" (Zenblog.call_opts opts) w).
Proof.
  intros W T. apply truthy_str_true in T. unfold result_of.
  rewrite call_list_run by assumption. rewrite fetcher_then_log_run. cbn zeta.
  destruct (snd (zenblog_fetcher _ _ _ w)); reflexivity.
Qed.

(** When a call ends in the request error, its trace is the trace of its
    request, possibly with debug output around it. *)
Lemma getBySlug_before o slug w a b :
  Public.blogId o <> "" ->
  before a b (fst (Public.client_fetch (Public.getConfig (Public._url o))
                     (Public.blogId o)
                     (Public.createDebugger (or_false (Public.debug o)))
                     ("post/" ++ slug) Public.public_opts w)) ->
  before a b (trace_of (call_getBySlug o slug) w).
Proof.
  intros B H. apply truthy_str_true in B. unfold trace_of.
  rewrite call_getBySlug_run by exact B. cbn zeta. cbn [fst].
  apply before_app_l. exact H.
Qed.

Lemma getAll_before o w a b :
  Public.blogId o <> "" ->
  before a b (fst (Public.client_fetch (Public.getConfig (Public._url o))
                     (Public.blogId o)
                     (Public.createDebugger (or_false (Public.debug o)))
                     "posts" Public.public_opts w)) ->
  before a b (trace_of (call_getAll o) w).
Proof.
  intros B H. apply truthy_str_true in B. unfold trace_of.
  rewrite call_getAll_run by exact B. cbn zeta. rewrite getAll_body_run. cbn zeta.
  destruct (snd (Public.client_fetch _ _ _ _ _ w)); cbn [fst].
  - apply before_app_l, before_app_r. exact H.
  - apply before_app_l. exact H.
Qed.

Lemma fetcher_call_before o path ropts label w a b :
  before a b (fst (zenblog_fetcher o path ropts w)) ->
  before a b
    (fst ((v <- zenblog_fetcher o path ropts ;;
           Zenblog.createLogger (or_false (Zenblog._debug o))
             (LStr label :: LVal v :: nil)%list ;;
           ret v) w)).
Proof.
  intros H. rewrite fetcher_then_log_run. cbn zeta.
  destruct (snd (zenblog_fetcher _ _ _ w)); cbn [fst].
  - apply before_app_r. exact H.
  - exact H.
Qed.

(** Parse failure and request failure of the four operations, against a
    transport that answers with [r]. *)
Lemma malformed_body_helper (r : Response) (w : World)
    (po : Public.CreateClientOpts) (zo : Zenblog.CreateClientOpts)
    (slug : string) (opts : option Zenblog.ReqOpts) (call : M jsval) :
  responds w r ->
  Public.blogId po <> "" ->
  window_defined w = false ->
  Zenblog.opt_accessToken zo <> "" ->
  In call (call_getAll po :: call_getBySlug po slug
           :: call_list zo opts :: call_get zo slug opts :: nil)%list ->
  (res_body r = None -> result_of call w = Throw SyntaxError) /\
  (result_of call w = Throw request_error ->
   (exists j, res_body r = Some j) /\
   before (ReadJson r) (request_error_line r) (trace_of call w)).
Proof.
  intros R B W T Hin.
  destruct Hin as [<- | [<- | [<- | [<- | []]]]].
  - pose proof (client_fetch_responds (or_false (Public.debug po))
                  (Public.getConfig (Public._url po)) (Public.blogId po)
                  "posts" Public.public_opts w r R) as (F1 & _ & _ & F4).
    cbn zeta in F1, F4. rewrite getAll_result by exact B. split.
    + intros N. rewrite (F1 N). reflexivity.
    + destruct (snd (Public.client_fetch _ _ _ _ _ w)) as [j | e] eqn:E.
      * intros H. apply posts_map_throws in H. discriminate.
      * intros H. destruct (F4 H) as (Hj & _ & Hb).
        split; [exact Hj |]. apply getAll_before; assumption.
  - pose proof (client_fetch_responds (or_false (Public.debug po))
                  (Public.getConfig (Public._url po)) (Public.blogId po)
                  ("post/" ++ slug) Public.public_opts w r R) as (F1 & _ & _ & F4).
    cbn zeta in F1, F4. rewrite getBySlug_result by exact B. split.
    + exact F1.
    + intros H. destruct (F4 H) as (Hj & _ & Hb).
      split; [exact Hj |]. apply getBySlug_before; assumption.
  - pose proof (fetcher_responds zo "posts" (Zenblog.call_opts opts) w r R)
      as (F1 & _ & _ & _ & F5).
    cbn zeta in F1, F5. rewrite list_result by assumption. split.
    + exact F1.
    + intros H. destruct (F5 H) as (Hj & _ & _ & Hb).
      split; [exact Hj |]. unfold trace_of.
      apply truthy_str_true in T. rewrite call_list_run by assumption.
      apply fetcher_call_before. exact Hb.
  - pose proof (fetcher_responds zo ("post/" ++ slug) (Zenblog.call_opts opts) w r R)
      as (F1 & _ & _ & _ & F5).
    cbn zeta in F1, F5. rewrite get_result by assumption. split.
    + exact F1.
    + intros H. destruct (F5 H) as (Hj & _ & _ & Hb).
      split; [exact Hj |]. unfold trace_of.
      apply truthy_str_true in T. rewrite call_get_run by assumption.
      apply fetcher_call_before. exact Hb.
Qed.

(** C7. Against a transport that answers with response [r], for each of
    the four operations of successfully built clients: if the body of [r]
    is not valid JSON the call throws the parser's error, whatever the
    status (so it returns nothing, not even [undefined]); and if the call
    throws the request error, then the body of [r] did parse and the read
    of the body precedes the failure's [console.error] line in the trace. *)
Theorem malformed_body_throws (r : Response) (w : World)
    (po : Public.CreateClientOpts) (zo : Zenblog.CreateClientOpts)
    (slug : string) (opts : option Zenblog.ReqOpts) (call : M jsval) :
  responds w r ->
  Public.blogId po <> "" ->
  window_defined w = false ->
  Zenblog.opt_accessToken zo <> "" ->
  In call (call_getAll po :: call_getBySlug po slug
           :: call_list zo opts :: call_get zo slug opts :: nil)%list ->
  (res_body r = None -> result_of call w = Throw SyntaxError) /\
  (result_of call w = Throw request_error ->
   (exists j, res_body r = Some j) /\
   before (ReadJson r) (request_error_line r) (trace_of call w)).
Proof. exact (malformed_body_helper r w po zo slug opts call). Qed.

Lemma malformed_body_throws_witness :
  result_of (call_getBySlug my_blog "hello") (serving malformed_200) = Throw SyntaxError /\
  before (ReadJson not_found_404) (request_error_line not_found_404)
         (trace_of (call_get with_token "hello" None) (serving not_found_404)).
Proof.
  split.
  - apply (malformed_body_throws malformed_200 (serving malformed_200)
             my_blog with_token "hello" None (call_getBySlug my_blog "hello")).
    + intros url opts. reflexivity.
    + discriminate.
    + reflexivity.
    + discriminate.
    + right. left. reflexivity.
    + reflexivity.
  - apply (malformed_body_throws not_found_404 (serving not_found_404)
             my_blog with_token "hello" None (call_get with_token "hello" None)).
    + intros url opts. reflexivity.
    + discriminate.
    + reflexivity.
    + discriminate.
    + right. right. right. left. reflexivity.
    + vm_compute. reflexivity.
Defined.

(** *** The debug flag *)

Lemma bind_throw {A B} (m : M A) (k : A -> M B) (w : World) t e :
  m w = (t, Throw e) -> bind m k w = (t, Throw e).
Proof. intros H. unfold bind. rewrite H. reflexivity. Qed.

Lemma posts_map_trace posts w : fst (Public.posts_map posts w) = nil.
Proof.
  destruct posts; try reflexivity.
  cbn. destruct (Public.array_map _ _); reflexivity.
Qed.

Lemma without_log_dbg d args : without_log (dbg d args) = nil.
Proof. destruct d; reflexivity. Qed.

Lemma client_fetch_debug d config bid path opts w :
  let run b := Public.client_fetch config bid (Public.createDebugger b) path opts w in
  snd (run d) = snd (run false) /\
  without_log (fst (run d)) = without_log (fst (run false)).
Proof.
  cbv beta zeta. rewrite !client_fetch_run. cbv beta zeta.
  destruct (transport w _ opts) as [e | r];
    [| destruct (res_body r) as [j |]; [destruct (res_ok r) |]];
    destruct d; split; reflexivity.
Qed.

Lemma createFetcher_debug d config path opts w :
  let run b := Zenblog.createFetcher config (Zenblog.createLogger b) path opts w in
  snd (run d) = snd (run false) /\
  without_log (fst (run d)) = without_log (fst (run false)).
Proof.
  cbv beta zeta. rewrite !createFetcher_run. cbv beta zeta.
  destruct (transport w _ _) as [e | r];
    [| destruct (res_body r) as [j |];
       [destruct (Zenblog.subscription_inactive r); [| destruct (res_ok r)] |]];
    destruct d; split; reflexivity.
Qed.

Lemma getBySlug_debug o slug d w :
  let run b := call_getBySlug (public_with_debug o b) slug w in
  snd (run d) = snd (run (Some false)) /\
  without_log (fst (run d)) = without_log (fst (run (Some false))).
Proof.
  cbv beta zeta. destruct (truthy_str (Public.blogId o)) eqn:B.
  - rewrite !call_getBySlug_run by exact B. cbn zeta.
    cbn [public_with_debug Public.debug Public._url Public.blogId fst snd].
    destruct (client_fetch_debug (or_false d) (Public.getConfig (Public._url o))
                (Public.blogId o) ("post/" ++ slug) Public.public_opts w) as [R T].
    cbv beta zeta in R, T. split; [exact R |].
    rewrite !without_log_app, !without_log_dbg, T. reflexivity.
  - unfold call_getBySlug, bind. rewrite !createClient_run. cbn zeta.
    cbn [public_with_debug Public.debug Public._url Public.blogId]. rewrite B.
    destruct (or_false d); split; reflexivity.
Qed.

Lemma getAll_debug o d w :
  let run b := call_getAll (public_with_debug o b) w in
  snd (run d) = snd (run (Some false)) /\
  without_log (fst (run d)) = without_log (fst (run (Some false))).
Proof.
  cbv beta zeta. destruct (truthy_str (Public.blogId o)) eqn:B.
  - rewrite !call_getAll_run by exact B. cbn zeta.
    cbn [public_with_debug Public.debug Public._url Public.blogId fst snd].
    rewrite !getAll_body_run. cbn zeta.
    destruct (client_fetch_debug (or_false d) (Public.getConfig (Public._url o))
                (Public.blogId o) "posts" Public.public_opts w) as [R T].
    cbv beta zeta in R, T. cbn [or_false]. rewrite R.
    destruct (snd (Public.client_fetch _ _ (Public.createDebugger false) _ _ w))
      as [j | e]; cbn [fst snd].
    + split; [reflexivity |].
      rewrite !without_log_app, !without_log_dbg, T. reflexivity.
    + split; [reflexivity |].
      rewrite !without_log_app, !without_log_dbg, T. reflexivity.
  - assert (F : forall b, call_getAll (public_with_debug o b) w
                          = ((dbg (or_false b)
                                (LStr "createClient "
                                 :: LConfig (Public.api (Public.getConfig (Public._url o)))
                                 :: nil)
                              ++ thrown "blogId is required" nil)%list,
                             Throw (Error (Public.error_tag ++ "blogId is required")))).
    { intros b. unfold call_getAll. apply bind_throw. rewrite createClient_run.
      cbn zeta. cbn [public_with_debug Public.debug Public._url Public.blogId].
      rewrite B. reflexivity. }
    rewrite !F. destruct (or_false d); split; reflexivity.
Qed.

Lemma zenblog_bind_run {B} o (k : Zenblog.Client -> M B) w :
  bind (Zenblog.createZenblogClient o) k w =
  match Zenblog.createZenblogClient o w with
  | (_, Return c) => k c w
  | (t, Throw e) => (t, Throw e)
  end.
Proof.
  unfold bind. rewrite createZenblogClient_run. cbv beta zeta.
  destruct (window_defined w); [reflexivity |].
  destruct (truthy_str (Zenblog.opt_accessToken o)); [| reflexivity].
  destruct (k _ w). reflexivity.
Qed.

Lemma fetcher_then_log_debug o path label ropts d w :
  let run b :=
    (v <- zenblog_fetcher (zenblog_with_debug o b) path ropts ;;
     Zenblog.createLogger (or_false b) (LStr label :: LVal v :: nil)%list ;;
     ret v) w in
  snd (run d) = snd (run (Some false)) /\
  without_log (fst (run d)) = without_log (fst (run (Some false))).
Proof.
  cbv beta zeta.
  pose proof (fetcher_then_log_run (zenblog_with_debug o d) path ropts label w) as E1.
  pose proof (fetcher_then_log_run (zenblog_with_debug o (Some false)) path
                ropts label w) as E2.
  cbn [zenblog_with_debug Zenblog._debug] in E1, E2. rewrite E1, E2.
  cbv beta zeta. unfold zenblog_fetcher, zenblog_api.
  cbn [zenblog_with_debug Zenblog._debug Zenblog._url Zenblog.opt_accessToken or_false].
  destruct (createFetcher_debug (or_false d)
              {| Zenblog.api := or_str (Zenblog._url o) "https://api.zenblog.com";
                 Zenblog.accessToken := Zenblog.opt_accessToken o |}
              path ropts w) as [R T].
  cbv beta zeta in R, T. rewrite R.
  destruct (snd (Zenblog.createFetcher _ (Zenblog.createLogger false) _ _ w))
    as [j | e]; cbn [fst snd app].
  - split; [reflexivity |].
    rewrite !without_log_app, !without_log_dbg, T. reflexivity.
  - split; [reflexivity | exact T].
Qed.

Lemma get_debug o slug opts d w :
  let run b := call_get (zenblog_with_debug o b) slug opts w in
  snd (run d) = snd (run (Some false)) /\
  without_log (fst (run d)) = without_log (fst (run (Some false))).
Proof.
  cbv beta zeta. unfold call_get. rewrite !zenblog_bind_run.
  rewrite !createZenblogClient_run. cbv beta zeta.
  cbn [zenblog_with_debug Zenblog._debug Zenblog._url Zenblog.opt_accessToken].
  destruct (window_defined w); [split; reflexivity |].
  destruct (truthy_str (Zenblog.opt_accessToken o)); [| split; reflexivity].
  cbn [Zenblog.posts_get].
  apply (fetcher_then_log_debug o ("post/" ++ slug) "posts.getBySlug").
Qed.

Lemma list_debug o opts d w :
  let run b := call_list (zenblog_with_debug o b) opts w in
  snd (run d) = snd (run (Some false)) /\
  without_log (fst (run d)) = without_log (fst (run (Some false))).
Proof.
  cbv beta zeta. unfold call_list. rewrite !zenblog_bind_run.
  rewrite !createZenblogClient_run. cbv beta zeta.
  cbn [zenblog_with_debug Zenblog._debug Zenblog._url Zenblog.opt_accessToken].
  destruct (window_defined w); [split; reflexivity |].
  destruct (truthy_str (Zenblog.opt_accessToken o)); [| split; reflexivity].
  cbn [Zenblog.posts_list].
  apply (fetcher_then_log_debug o "posts" "posts.getAll").
Qed.

(** C8. For every input and every behaviour of the transport, each of the
    four operations returns the same value or throws the same error, and
    leaves the same trace apart from [console.log] lines, whatever the two
    debug settings compared. *)
Theorem debug_only_logs (po : Public.CreateClientOpts) (zo : Zenblog.CreateClientOpts)
    (d1 d2 : option bool) (slug : string) (opts : option Zenblog.ReqOpts) (w : World) :
  same_behaviour (call_getAll (public_with_debug po d1))
                 (call_getAll (public_with_debug po d2)) w /\
  same_behaviour (call_getBySlug (public_with_debug po d1) slug)
                 (call_getBySlug (public_with_debug po d2) slug) w /\
  same_behaviour (call_list (zenblog_with_debug zo d1) opts)
                 (call_list (zenblog_with_debug zo d2) opts) w /\
  same_behaviour (call_get (zenblog_with_debug zo d1) slug opts)
                 (call_get (zenblog_with_debug zo d2) slug opts) w.
Proof.
  unfold same_behaviour, result_of, trace_of.
  destruct (getAll_debug po d1 w) as [A1 A2], (getAll_debug po d2 w) as [A3 A4].
  destruct (getBySlug_debug po slug d1 w) as [B1 B2],
           (getBySlug_debug po slug d2 w) as [B3 B4].
  destruct (list_debug zo opts d1 w) as [C1 C2], (list_debug zo opts d2 w) as [C3 C4].
  destruct (get_debug zo slug opts d1 w) as [D1 D2],
           (get_debug zo slug opts d2 w) as [D3 D4].
  cbv beta zeta in *.
  repeat split; congruence.
Qed.

(** *** The subscription header *)

Lemma inactive_header_detected r :
  inactive_header r -> Zenblog.subscription_inactive r = true.
Proof.
  unfold inactive_header, Zenblog.subscription_inactive. intros ->. reflexivity.
Qed.

(** What a management call does when the response carries the inactive
    header: the whole run, for any path. *)
Lemma fetcher_inactive_run o path ropts label w r :
  responds w r ->
  inactive_header r ->
  (v <- zenblog_fetcher o path ropts ;;
   Zenblog.createLogger (or_false (Zenblog._debug o)) (LStr label :: LVal v :: nil)%list ;;
   ret v) w =
  let config := {| Zenblog.api := zenblog_api o;
                   Zenblog.accessToken := Zenblog.opt_accessToken o |} in
  let URL := Zenblog.fetch_url config path in
  let req := Zenblog.reqOpts config ropts in
  let pre := (dbg (or_false (Zenblog._debug o))
                  (LStr "fetch " :: LStr URL :: LReq req :: nil)
              ++ Fetch URL req :: ReadJson r :: nil)%list in
  match res_body r with
  | None => ((pre ++ caught SyntaxError)%list, Throw SyntaxError)
  | Some _ =>
      ((pre ++ subscription_error_line :: caught subscription_error)%list,
       Throw subscription_error)
  end.
Proof.
  intros R I. apply inactive_header_detected in I. unfold responds in R.
  rewrite fetcher_then_log_run. cbv beta zeta. unfold zenblog_fetcher.
  rewrite createFetcher_run. cbv beta zeta. rewrite R, I.
  destruct (res_body r) as [j |]; cbn [fst snd];
    destruct (or_false (Zenblog._debug o)); reflexivity.
Qed.

(** C1, as the code has it. When the response carries the inactive header
    and its body parses as JSON, [list] and [get] throw the subscription
    error whatever the status, 200 included, and the request failure is not
    reported: the header is checked before the status. *)
Theorem subscription_checked_before_status (r : Response) (w : World)
    (zo : Zenblog.CreateClientOpts) (slug : string) (opts : option Zenblog.ReqOpts)
    (j : jsval) :
  responds w r ->
  window_defined w = false ->
  Zenblog.opt_accessToken zo <> "" ->
  inactive_header r ->
  res_body r = Some j ->
  result_of (call_list zo opts) w = Throw subscription_error /\
  result_of (call_get zo slug opts) w = Throw subscription_error /\
  ~ In (request_error_line r) (trace_of (call_list zo opts) w) /\
  ~ In (request_error_line r) (trace_of (call_get zo slug opts) w).
Proof.
  intros R W T I J. apply truthy_str_true in T.
  unfold result_of, trace_of.
  rewrite call_list_run, call_get_run by assumption.
  rewrite !(fetcher_inactive_run _ _ _ _ w r R I). cbv beta zeta. rewrite J.
  cbn [fst snd].
  split; [reflexivity |]. split; [reflexivity |].
  split; intros H; apply in_app_or in H;
    destruct H as [H | H];
    (destruct (or_false (Zenblog._debug zo)); cbn in H;
     repeat (destruct H as [H | H]; [discriminate H |]); exact H).
Qed.

Lemma subscription_checked_before_status_witness :
  result_of (call_list with_token None) (serving inactive_200) = Throw subscription_error /\
  result_of (call_get with_token "hello" None) (serving inactive_200)
  = Throw subscription_error /\
  ~ In (request_error_line inactive_200)
       (trace_of (call_list with_token None) (serving inactive_200)) /\
  ~ In (request_error_line inactive_200)
       (trace_of (call_get with_token "hello" None) (serving inactive_200)).
Proof.
  apply (subscription_checked_before_status inactive_200 (serving inactive_200)
           with_token "hello" None (JArr nil)).
  - intros url opts. reflexivity.
  - reflexivity.
  - discriminate.
  - reflexivity.
  - reflexivity.
Defined.

(** C1 fails as stated: a 200 response with the inactive header whose body
    is not valid JSON makes [list] throw the parser's error, not the
    subscription error. *)
Lemma subscription_error_needs_json_body :
  inactive_header inactive_malformed_200 /\
  res_status inactive_malformed_200 = 200 /\
  result_of (call_list with_token None) (serving inactive_malformed_200)
  = Throw SyntaxError /\
  result_of (call_list with_token None) (serving inactive_malformed_200)
  <> Throw subscription_error.
Proof.
  split; [reflexivity |]. split; [reflexivity |].
  split; [vm_compute; reflexivity |].
  vm_compute. discriminate.
Qed.

(** C3, as the code has it. When the response carries the inactive header,
    [list] and [get] first read and parse the body. If that fails the
    parser's error is thrown and the subscription is never looked at; if it
    succeeds the subscription error is thrown at once, before the response
    is logged or its status checked, and the parsed value is not used. *)
Theorem subscription_checked_after_parse (r : Response) (w : World)
    (zo : Zenblog.CreateClientOpts) (slug : string) (opts : option Zenblog.ReqOpts) :
  responds w r ->
  window_defined w = false ->
  Zenblog.opt_accessToken zo <> "" ->
  inactive_header r ->
  call_list zo opts w = inactive_run zo opts "posts" r /\
  call_get zo slug opts w = inactive_run zo opts ("post/" ++ slug) r.
Proof.
  intros R W T I. apply truthy_str_true in T.
  rewrite call_list_run, call_get_run by assumption.
  rewrite !(fetcher_inactive_run _ _ _ _ w r R I).
  split; reflexivity.
Qed.

Lemma subscription_checked_after_parse_witness :
  call_list with_token None (serving inactive_402)
  = inactive_run with_token None "posts" inactive_402 /\
  call_get with_token "hello" None (serving inactive_402)
  = inactive_run with_token None "post/hello" inactive_402.
Proof.
  apply (subscription_checked_after_parse inactive_402 (serving inactive_402)
           with_token "hello" None).
  - intros url opts. reflexivity.
  - reflexivity.
  - discriminate.
  - reflexivity.
Defined.

(** C3 fails as stated: on a response with the inactive header the body
    is read and parsed before the subscription error is raised. *)
Lemma body_parsed_before_subscription_error :
  inactive_header inactive_402 /\
  before (ReadJson inactive_402) subscription_error_line
         (trace_of (call_list with_token None) (serving inactive_402)).
Proof.
  split; [reflexivity |].
  exists (Fetch "https://api.zenblog.com/posts" (zenblog_request with_token None)
          :: nil)%list,
         (subscription_error_line :: caught subscription_error)%list.
  split; [vm_compute; reflexivity | left; reflexivity].
Qed.

(** *** The request error *)





(** *** The list of posts *)

Lemma valid_post_object p : valid_post p = true -> exists fields, p = JObj fields.
Proof. destruct p; cbn; try discriminate. eauto. Qed.

Lemma normalizePost_object fields :
  Public.normalizePost (JObj fields) = Return (post_summary (JObj fields)).
Proof. reflexivity. Qed.

Lemma array_map_valid posts :
  Forall (fun p => valid_post p = true) posts ->
  Public.array_map Public.normalizePost posts = Return (List.map post_summary posts).
Proof.
  induction 1 as [| p rest V _ IH]; [reflexivity |].
  destruct (valid_post_object p V) as [fields ->].
  cbn [Public.array_map]. rewrite normalizePost_object, IH. reflexivity.
Qed.

Lemma post_summary_own_props fields :
  exists out : list (string * jsval),
    post_summary (JObj fields) = JObj out /\
    List.map fst out = post_keys /\
    forall k, In k post_keys ->
              own_prop k out
              = Some (match own_prop k fields with Some v => v | None => JUndefined end).
Proof.
  eexists. split; [reflexivity |]. split; [reflexivity |].
  intros k H. cbn in H.
  destruct H as [<- | [<- | [<- | [<- | [<- | []]]]]]; reflexivity.
Qed.

(** C4, as the code has it. When the server answers 2xx with a JSON array
    of valid post records, [getAll] returns the array of their [Post]
    summaries, in the server's order. Each summary owns exactly the five
    [Post] properties and nothing else; each of them, [cover_image]
    included, holds the value the server sent, or [undefined] when the
    record has no such property. So a record without a cover image comes
    back with an own property [cover_image] whose value is [undefined], not
    without the property. [list] of a management client returns the
    server's array as it is. *)
Theorem list_preserves_posts (r : Response) (w : World)
    (po : Public.CreateClientOpts) (zo : Zenblog.CreateClientOpts)
    (opts : option Zenblog.ReqOpts) (posts : list jsval) :
  responds w r ->
  Public.blogId po <> "" ->
  res_ok r = true ->
  res_body r = Some (JArr posts) ->
  Forall (fun p => valid_post p = true) posts ->
  result_of (call_getAll po) w = Return (JArr (List.map post_summary posts)) /\
  (forall p, keys (post_summary p) = post_keys) /\
  (forall fields,
      exists out : list (string * jsval),
        post_summary (JObj fields) = JObj out /\
        List.map fst out = post_keys /\
        forall k, In k post_keys ->
                  own_prop k out
                  = Some (match own_prop k fields with
                          | Some v => v
                          | None => JUndefined
                          end)) /\
  (window_defined w = false ->
   Zenblog.opt_accessToken zo <> "" ->
   Zenblog.subscription_inactive r = false ->
   result_of (call_list zo opts) w = Return (JArr posts)).
Proof.
  intros R B K J V. split; [| split; [| split]].
  - rewrite getAll_result by exact B.
    destruct (client_fetch_responds (or_false (Public.debug po))
                (Public.getConfig (Public._url po)) (Public.blogId po)
                "posts" Public.public_opts w r R) as (_ & F2 & _).
    cbv beta zeta in F2. rewrite (F2 _ J K).
    cbn [Public.posts_map]. rewrite (array_map_valid posts V). reflexivity.
  - intros p. reflexivity.
  - apply post_summary_own_props.
  - intros W T S. rewrite list_result by assumption.
    destruct (fetcher_responds zo "posts" (Zenblog.call_opts opts) w r R)
      as (_ & _ & F3 & _).
    cbv beta zeta in F3. exact (F3 _ J S K).
Qed.

Lemma list_preserves_posts_witness :
  result_of (call_getAll my_blog) (serving two_posts_200)
  = Return (JArr (JObj (("slug", JStr "hello") :: ("title", JStr "Hello")
                        :: ("created_at", JStr "2024-01-01")
                        :: ("updated_at", JStr "2024-01-02")
                        :: ("cover_image", JStr "https://img/1.png") :: nil)
                  :: JObj (("slug", JStr "bye") :: ("title", JStr "Bye")
                           :: ("created_at", JStr "2024-02-01")
                           :: ("updated_at", JStr "2024-02-02")
                           :: ("cover_image", JUndefined) :: nil)
                  :: nil)%list) /\
  result_of (call_list with_token None) (serving two_posts_200)
  = Return (JArr (first_post :: second_post :: nil)%list).
Proof.
  destruct (list_preserves_posts two_posts_200 (serving two_posts_200)
              my_blog with_token None (first_post :: second_post :: nil)%list)
    as (H1 & _ & _ & H4).
  - intros url opts. reflexivity.
  - discriminate.
  - reflexivity.
  - reflexivity.
  - repeat constructor.
  - split; [exact H1 |]. apply H4.
    + reflexivity.
    + discriminate.
    + reflexivity.
Defined.

(** C4 fails as stated: the second record the server sends has no
    [cover_image], yet the object [getAll] returns for it owns a
    [cover_image] property, whose value is [undefined]: the property is
    there, not absent. *)
Lemma cover_image_undefined_not_absent :
  match second_post with
  | JObj fields => own_prop "cover_image" fields = None
  | _ => False
  end /\
  result_of (call_getAll my_blog) (serving two_posts_200)
  = Return (JArr (post_summary first_post :: post_summary second_post :: nil)%list) /\
  In "cover_image" (keys (post_summary second_post)) /\
  match post_summary second_post with
  | JObj out => own_prop "cover_image" out = Some JUndefined
  | _ => False
  end.
Proof.
  split; [reflexivity |]. split; [vm_compute; reflexivity |].
  split; [cbn; tauto | reflexivity].
Qed.

(** * Further properties of the two clients *)

(** ** What a call returns or throws, by response *)

(** The public single-post fetch: a body that is not JSON gives the
    parser's error; otherwise a 2xx status returns the parsed body as it is,
    without any validation and whatever the headers, and any other status
    gives the request error. *)
Theorem getBySlug_outcome (r : Response) (w : World) (o : Public.CreateClientOpts)
    (slug : string) :
  responds w r ->
  Public.blogId o <> "" ->
  result_of (call_getBySlug o slug) w =
  match res_body r with
  | None => Throw SyntaxError
  | Some j => if res_ok r then Return j else Throw request_error
  end.
Proof.
  intros R B. rewrite getBySlug_result by exact B.
  rewrite client_fetch_run. cbv beta zeta. unfold responds in R. rewrite R.
  destruct (res_body r) as [j |]; [destruct (res_ok r) |]; reflexivity.
Qed.

Lemma getBySlug_outcome_witness :
  result_of (call_getBySlug my_blog "hello") (serving inactive_200) = Return (JArr nil).
Proof.
  apply (getBySlug_outcome inactive_200 (serving inactive_200) my_blog "hello").
  - intros url opts. reflexivity.
  - discriminate.
Defined.

Lemma array_map_non_null posts :
  Public.array_map Public.normalizePost posts =
  if forallb non_null posts then Return (List.map post_summary posts)
  else Throw TypeError.
Proof.
  induction posts as [| p rest IH]; [reflexivity |].
  cbn [Public.array_map forallb List.map]. rewrite IH.
  destruct p; cbn; try reflexivity; destruct (forallb non_null rest); reflexivity.
Qed.

(** The public list: the status is checked before the body is looked at,
    so a non-2xx answer gives the request error whatever its body. On a 2xx
    answer, a body that is not an array, or an array that holds a null,
    gives a [TypeError]; any other array gives the summaries of its
    elements, in order. *)
Theorem getAll_outcome (r : Response) (w : World) (o : Public.CreateClientOpts) :
  responds w r ->
  Public.blogId o <> "" ->
  result_of (call_getAll o) w =
  match res_body r with
  | None => Throw SyntaxError
  | Some j =>
      if res_ok r then
        match j with
        | JArr posts =>
            if forallb non_null posts
            then Return (JArr (List.map post_summary posts))
            else Throw TypeError
        | _ => Throw TypeError
        end
      else Throw request_error
  end.
Proof.
  intros R B. rewrite getAll_result by exact B.
  rewrite client_fetch_run. cbv beta zeta. unfold responds in R. rewrite R.
  destruct (res_body r) as [j |]; [destruct (res_ok r) |]; cbn [snd]; try reflexivity.
  destruct j; try reflexivity.
  cbn [Public.posts_map]. rewrite array_map_non_null.
  destruct (forallb non_null elems); reflexivity.
Qed.

Lemma getAll_outcome_witness :
  result_of (call_getAll my_blog) (serving null_in_array_200) = Throw TypeError.
Proof.
  apply (getAll_outcome null_in_array_200 (serving null_in_array_200) my_blog).
  - intros url opts. reflexivity.
  - discriminate.
Defined.

(** The result of [list] and [get] against a transport that answers with [r]. *)
Lemma zenblog_result_table (r : Response) (w : World) (o : Zenblog.CreateClientOpts)
    (slug : string) (opts : option Zenblog.ReqOpts) (call : M jsval) :
  responds w r ->
  window_defined w = false ->
  Zenblog.opt_accessToken o <> "" ->
  In call (call_list o opts :: call_get o slug opts :: nil)%list ->
  result_of call w =
  match res_body r with
  | None => Throw SyntaxError
  | Some j =>
      if Zenblog.subscription_inactive r then Throw subscription_error
      else if res_ok r then Return j
      else Throw request_error
  end.
Proof.
  intros R W T Hin.
  assert (F : forall path,
             snd (zenblog_fetcher o path (Zenblog.call_opts opts) w) =
             match res_body r with
             | None => Throw SyntaxError
             | Some j =>
                 if Zenblog.subscription_inactive r then Throw subscription_error
                 else if res_ok r then Return j
                 else Throw request_error
             end).
  { intros path. unfold zenblog_fetcher. rewrite createFetcher_run. cbv beta zeta.
    unfold responds in R. rewrite R.
    destruct (res_body r) as [j |];
      [destruct (Zenblog.subscription_inactive r); [| destruct (res_ok r)] |];
      reflexivity. }
  destruct Hin as [<- | [<- | []]].
  - rewrite list_result by assumption. apply F.
  - rewrite get_result by assumption. apply F.
Qed.

(** The management client: [list] and [get] decide alike, and neither
    looks into the parsed body. Parse failure first, then the subscription
    header, then the status; a 2xx answer returns the parsed body as it
    is, array or not. *)
Theorem zenblog_outcome (r : Response) (w : World) (o : Zenblog.CreateClientOpts)
    (slug : string) (opts : option Zenblog.ReqOpts) (call : M jsval) :
  responds w r ->
  window_defined w = false ->
  Zenblog.opt_accessToken o <> "" ->
  In call (call_list o opts :: call_get o slug opts :: nil)%list ->
  result_of call w =
  match res_body r with
  | None => Throw SyntaxError
  | Some j =>
      if Zenblog.subscription_inactive r then Throw subscription_error
      else if res_ok r then Return j
      else Throw request_error
  end.
Proof. exact (zenblog_result_table r w o slug opts call). Qed.

Lemma zenblog_outcome_witness :
  result_of (call_list with_token None) (serving object_200)
  = Return (JObj (("posts", JArr nil) :: nil)%list).
Proof.
  apply (zenblog_outcome object_200 (serving object_200) with_token "hello" None).
  - intros url opts. reflexivity.
  - reflexivity.
  - discriminate.
  - left. reflexivity.
Defined.

(** ** Network failure *)

(** When [fetch] itself rejects, the public client lets the rejection
    through as it is: the call throws the very same error, the body is never
    read and nothing is printed to [console.error]; apart from debug output
    the trace is the one request. *)
Theorem public_network_failure (e : exn) (w : World) (o : Public.CreateClientOpts)
    (slug : string) :
  rejects w e ->
  Public.blogId o <> "" ->
  (result_of (call_getAll o) w = Throw e /\
   without_log (trace_of (call_getAll o) w)
   = (Fetch (Public.public_url (Public.getConfig (Public._url o)) (Public.blogId o) "posts")
            Public.public_opts :: nil)%list) /\
  (result_of (call_getBySlug o slug) w = Throw e /\
   without_log (trace_of (call_getBySlug o slug) w)
   = (Fetch (Public.public_url (Public.getConfig (Public._url o)) (Public.blogId o)
               ("post/" ++ slug))
            Public.public_opts :: nil)%list).
Proof.
  intros R B. apply truthy_str_true in B. unfold rejects in R.
  unfold result_of, trace_of. split.
  - rewrite call_getAll_run by exact B. cbv beta zeta. rewrite getAll_body_run.
    cbv beta zeta. rewrite client_fetch_run. cbv beta zeta. rewrite R. cbn [fst snd].
    split; [reflexivity |]. destruct (or_false (Public.debug o)); reflexivity.
  - rewrite call_getBySlug_run by exact B. cbv beta zeta.
    rewrite client_fetch_run. cbv beta zeta. rewrite R. cbn [fst snd].
    split; [reflexivity |]. destruct (or_false (Public.debug o)); reflexivity.
Qed.

Lemma public_network_failure_witness :
  (result_of (call_getAll my_blog) offline = Throw (NetworkError "offline") /\
   without_log (trace_of (call_getAll my_blog) offline)
   = (Fetch "https://zenblog.com/api/public/blog1/posts" Public.public_opts :: nil)%list) /\
  (result_of (call_getBySlug my_blog "hello") offline = Throw (NetworkError "offline") /\
   without_log (trace_of (call_getBySlug my_blog "hello") offline)
   = (Fetch "https://zenblog.com/api/public/blog1/post/hello" Public.public_opts
        :: nil)%list).
Proof.
  apply (public_network_failure (NetworkError "offline") offline my_blog "hello").
  - intros url opts. reflexivity.
  - discriminate.
Defined.

(** When [fetch] itself rejects, the management client reports the error
    once through the [catch] block of its fetcher and throws the very same
    error again; the body is never read. *)
Theorem zenblog_network_failure (e : exn) (w : World) (o : Zenblog.CreateClientOpts)
    (slug : string) (opts : option Zenblog.ReqOpts) :
  rejects w e ->
  window_defined w = false ->
  Zenblog.opt_accessToken o <> "" ->
  (result_of (call_list o opts) w = Throw e /\
   without_log (trace_of (call_list o opts) w)
   = (Fetch (zenblog_api o ++ "/" ++ "posts") (zenblog_request o opts)
        :: ConsoleError (LStr "[Zenblog Error] " :: LExn e :: nil) :: nil)%list) /\
  (result_of (call_get o slug opts) w = Throw e /\
   without_log (trace_of (call_get o slug opts) w)
   = (Fetch (zenblog_api o ++ "/" ++ "post/" ++ slug) (zenblog_request o opts)
        :: ConsoleError (LStr "[Zenblog Error] " :: LExn e :: nil) :: nil)%list).
Proof.
  intros R W T. apply truthy_str_true in T. unfold rejects in R.
  unfold result_of, trace_of.
  rewrite call_list_run, call_get_run by assumption.
  rewrite !fetcher_then_log_run. cbv beta zeta. unfold zenblog_fetcher.
  rewrite !createFetcher_run. cbv beta zeta. rewrite !R. cbn [fst snd].
  split; (split; [reflexivity |]);
    destruct (or_false (Zenblog._debug o)); reflexivity.
Qed.

Lemma zenblog_network_failure_witness :
  (result_of (call_list with_token None) offline = Throw (NetworkError "offline") /\
   without_log (trace_of (call_list with_token None) offline)
   = (Fetch "https://api.zenblog.com/posts" (zenblog_request with_token None)
        :: ConsoleError (LStr "[Zenblog Error] " :: LExn (NetworkError "offline") :: nil)
        :: nil)%list) /\
  (result_of (call_get with_token "hello" None) offline = Throw (NetworkError "offline") /\
   without_log (trace_of (call_get with_token "hello" None) offline)
   = (Fetch "https://api.zenblog.com/post/hello" (zenblog_request with_token None)
        :: ConsoleError (LStr "[Zenblog Error] " :: LExn (NetworkError "offline") :: nil)
        :: nil)%list).
Proof.
  apply (zenblog_network_failure (NetworkError "offline") offline with_token "hello" None).
  - intros url opts. reflexivity.
  - reflexivity.
  - discriminate.
Defined.

(** ** The catch block of the management fetcher *)

Lemma fetcher_call_reports o path ropts label w :
  let run := (v <- zenblog_fetcher o path ropts ;;
              Zenblog.createLogger (or_false (Zenblog._debug o))
                (LStr label :: LVal v :: nil)%list ;;
              ret v) w in
  match snd run with
  | Throw e => exists t, fst run = (t ++ caught e)%list
  | Return _ => ~ prints_error (fst run)
  end.
Proof.
  cbv beta zeta. rewrite fetcher_then_log_run. cbv beta zeta.
  unfold zenblog_fetcher. rewrite createFetcher_run. cbv beta zeta.
  destruct (transport w _ _) as [e | r];
    [| destruct (res_body r) as [j |];
       [destruct (Zenblog.subscription_inactive r); [| destruct (res_ok r)] |]];
    cbn [fst snd];
    try (destruct (or_false (Zenblog._debug o));
         match goal with
         | |- exists t, ?l = (t ++ _)%list =>
             exists (removelast l); reflexivity
         end).
  destruct (or_false (Zenblog._debug o)); intros [args H]; cbn in H;
    repeat (destruct H as [H | H]; [discriminate H |]); exact H.
Qed.

(** On a management client every failure of [list] or [get] is reported:
    a call that throws [e] ends its trace with the [catch] block's
    [console.error] line for that same [e], and a call that returns prints
    nothing to [console.error]. *)
Theorem zenblog_errors_reported (w : World) (o : Zenblog.CreateClientOpts)
    (slug : string) (opts : option Zenblog.ReqOpts) (call : M jsval) :
  window_defined w = false ->
  Zenblog.opt_accessToken o <> "" ->
  In call (call_list o opts :: call_get o slug opts :: nil)%list ->
  match result_of call w with
  | Throw e =>
      exists t, trace_of call w
                = (t ++ ConsoleError (LStr "[Zenblog Error] " :: LExn e :: nil) :: nil)%list
  | Return _ => ~ prints_error (trace_of call w)
  end.
Proof.
  intros W T Hin. apply truthy_str_true in T. unfold result_of, trace_of.
  destruct Hin as [<- | [<- | []]].
  - rewrite call_list_run by assumption.
    pose proof (fetcher_call_reports o "posts" (Zenblog.call_opts opts) "posts.getAll" w)
      as H.
    cbv beta zeta in H.
    destruct (snd _) as [v | e]; exact H.
  - rewrite call_get_run by assumption.
    pose proof (fetcher_call_reports o ("post/" ++ slug) (Zenblog.call_opts opts)
                  "posts.getBySlug" w) as H.
    cbv beta zeta in H.
    destruct (snd _) as [v | e]; exact H.
Qed.

Lemma zenblog_errors_reported_witness :
  exists t, trace_of (call_get with_token "hello" None) (serving not_found_404)
            = (t ++ ConsoleError (LStr "[Zenblog Error] " :: LExn request_error :: nil)
                 :: nil)%list.
Proof.
  apply (zenblog_errors_reported (serving not_found_404) with_token "hello" None
           (call_get with_token "hello" None)).
  - reflexivity.
  - discriminate.
  - right. left. reflexivity.
Defined.

(** ** Debug off *)

Lemma client_fetch_quiet config bid path opts w v :
  snd (Public.client_fetch config bid (Public.createDebugger false) path opts w) = Return v ->
  exists r, fst (Public.client_fetch config bid (Public.createDebugger false) path opts w)
            = (Fetch (Public.public_url config bid path) opts :: ReadJson r :: nil)%list.
Proof.
  rewrite client_fetch_run. cbv beta zeta.
  destruct (transport w _ opts) as [e | r]; [discriminate |].
  destruct (res_body r) as [j |]; [| discriminate].
  destruct (res_ok r); [| discriminate].
  intros _. exists r. reflexivity.
Qed.

Lemma fetcher_quiet o path ropts w v :
  debug_off (Zenblog._debug o) ->
  snd (zenblog_fetcher o path ropts w) = Return v ->
  exists url req r,
    fst (zenblog_fetcher o path ropts w) = (Fetch url req :: ReadJson r :: nil)%list.
Proof.
  unfold debug_off, zenblog_fetcher. intros ->.
  rewrite createFetcher_run. cbv beta zeta.
  destruct (transport w _ _) as [e | r]; [discriminate |].
  destruct (res_body r) as [j |]; [| discriminate].
  destruct (Zenblog.subscription_inactive r); [discriminate |].
  destruct (res_ok r); [| discriminate].
  intros _. eexists. eexists. exists r. reflexivity.
Qed.

(** With debug off (absent or false) a call that returns leaves a trace of
    exactly two events, the request and the read of the response body:
    nothing is printed, neither by the construction of the client nor by
    the call. *)
Theorem quiet_success (w : World) (po : Public.CreateClientOpts)
    (zo : Zenblog.CreateClientOpts) (slug : string) (opts : option Zenblog.ReqOpts)
    (call : M jsval) (v : jsval) :
  debug_off (Public.debug po) ->
  debug_off (Zenblog._debug zo) ->
  In call (call_getAll po :: call_getBySlug po slug
           :: call_list zo opts :: call_get zo slug opts :: nil)%list ->
  result_of call w = Return v ->
  exists url req r, trace_of call w = (Fetch url req :: ReadJson r :: nil)%list.
Proof.
  intros DP DZ Hin. unfold result_of, trace_of.
  destruct Hin as [<- | [<- | [<- | [<- | []]]]].
  - destruct (truthy_str (Public.blogId po)) eqn:B.
    + rewrite call_getAll_run by exact B. cbv beta zeta. rewrite getAll_body_run.
      cbv beta zeta. unfold debug_off in DP. rewrite DP.
      destruct (snd (Public.client_fetch _ _ _ _ _ w)) as [j | e] eqn:E;
        [| discriminate].
      destruct (client_fetch_quiet _ _ _ _ _ _ E) as [r Hr].
      cbn [fst snd]. rewrite Hr, posts_map_trace. intros _.
      eexists. eexists. exists r. reflexivity.
    + unfold call_getAll. erewrite bind_throw; [discriminate |].
      rewrite createClient_run. cbv beta zeta. rewrite B. reflexivity.
  - destruct (truthy_str (Public.blogId po)) eqn:B.
    + rewrite call_getBySlug_run by exact B. cbv beta zeta.
      unfold debug_off in DP. rewrite DP. cbn [fst snd]. intros E.
      destruct (client_fetch_quiet _ _ _ _ _ _ E) as [r Hr]. rewrite Hr.
      eexists. eexists. exists r. reflexivity.
    + unfold call_getBySlug. erewrite bind_throw; [discriminate |].
      rewrite createClient_run. cbv beta zeta. rewrite B. reflexivity.
  - unfold call_list. rewrite zenblog_bind_run, createZenblogClient_run. cbv beta zeta.
    destruct (window_defined w); [discriminate |].
    destruct (truthy_str (Zenblog.opt_accessToken zo)); [| discriminate].
    cbn [Zenblog.posts_list]. rewrite fetcher_then_log_run. cbv beta zeta.
    destruct (snd (zenblog_fetcher _ _ _ w)) as [j | e] eqn:E; [| discriminate].
    destruct (fetcher_quiet _ _ _ _ _ DZ E) as (url & req & r & Hr).
    cbn [fst snd]. rewrite Hr. unfold debug_off in DZ. rewrite DZ. intros _.
    exists url, req, r. reflexivity.
  - unfold call_get. rewrite zenblog_bind_run, createZenblogClient_run. cbv beta zeta.
    destruct (window_defined w); [discriminate |].
    destruct (truthy_str (Zenblog.opt_accessToken zo)); [| discriminate].
    cbn [Zenblog.posts_get]. rewrite fetcher_then_log_run. cbv beta zeta.
    destruct (snd (zenblog_fetcher _ _ _ w)) as [j | e] eqn:E; [| discriminate].
    destruct (fetcher_quiet _ _ _ _ _ DZ E) as (url & req & r & Hr).
    cbn [fst snd]. rewrite Hr. unfold debug_off in DZ. rewrite DZ. intros _.
    exists url, req, r. reflexivity.
Qed.

Lemma quiet_success_witness :
  exists url req r,
    trace_of (call_getAll my_blog) (serving two_posts_200)
    = (Fetch url req :: ReadJson r :: nil)%list.
Proof.
  apply (quiet_success (serving two_posts_200) my_blog with_token "hello" None
           (call_getAll my_blog)
           (JArr (post_summary first_post :: post_summary second_post :: nil)%list)).
  - reflexivity.
  - reflexivity.
  - left. reflexivity.
  - vm_compute. reflexivity.
Defined.

(** ** Construction of the management client *)

(** [createZenblogClient] checks the execution context first and the token
    second: with a [window] global the browser error is thrown whatever the
    token; without one an empty token gives the token error. When it
    succeeds it has printed nothing, whatever the debug setting. *)
Theorem createZenblogClient_outcome (o : Zenblog.CreateClientOpts) (w : World) :
  match result_of (Zenblog.createZenblogClient o) w with
  | Throw e =>
      (window_defined w = true \/ Zenblog.opt_accessToken o = "") /\
      e = Error (Public.error_tag
                 ++ (if window_defined w then browser_message else token_message))
  | Return _ =>
      window_defined w = false /\ Zenblog.opt_accessToken o <> "" /\
      trace_of (Zenblog.createZenblogClient o) w = nil
  end.
Proof.
  unfold result_of, trace_of. rewrite createZenblogClient_run. cbv beta zeta.
  destruct (window_defined w).
  - cbn [snd]. split; [left |]; reflexivity.
  - destruct (truthy_str (Zenblog.opt_accessToken o)) eqn:T; cbn [fst snd].
    + apply truthy_str_true in T. split; [reflexivity | split; [exact T | reflexivity]].
    + apply truthy_str_false in T. split; [right; exact T | reflexivity].
Qed.

Example browser_guard_comes_first :
  result_of (Zenblog.createZenblogClient no_token) browser
  = Throw (Error (Public.error_tag ++ browser_message)).
Proof. reflexivity. Qed.

(** ** The request each client sends *)

Lemma fetcher_then_log_fetches o path ropts label w :
  fetches (fst ((v <- zenblog_fetcher o path ropts ;;
                 Zenblog.createLogger (or_false (Zenblog._debug o))
                   (LStr label :: LVal v :: nil)%list ;;
                 ret v) w))
  = ((Zenblog.fetch_url
        {| Zenblog.api := zenblog_api o; Zenblog.accessToken := Zenblog.opt_accessToken o |}
        path,
      Zenblog.reqOpts
        {| Zenblog.api := zenblog_api o; Zenblog.accessToken := Zenblog.opt_accessToken o |}
        ropts) :: nil)%list.
Proof.
  rewrite fetcher_then_log_run. cbv beta zeta.
  pose proof (fetcher_fetches o path ropts w) as F.
  destruct (zenblog_fetcher o path ropts w) as [t [v | e]]; cbn [fst snd] in *.
  - rewrite fetches_app, F. destruct (or_false (Zenblog._debug o)); reflexivity.
  - exact F.
Qed.

(** [list] on a management client sends exactly one request, whatever the
    transport then does: a GET to [posts] under the configured endpoint,
    the default endpoint standing in for a missing or empty [_url]; with the
    cache directive of the call, "default" standing in for a missing or
    empty one; and with exactly the two injected headers. *)
Theorem list_request (w : World) (o : Zenblog.CreateClientOpts)
    (opts : option Zenblog.ReqOpts) :
  window_defined w = false ->
  Zenblog.opt_accessToken o <> "" ->
  fetches (trace_of (call_list o opts) w) =
  (((match Zenblog._url o with
     | Some u => if String.eqb u "" then "https://api.zenblog.com" else u
     | None => "https://api.zenblog.com"
     end ++ "/posts")%string,
    {| method := Some "GET";
       cache := Some match opts with
                     | Some {| Zenblog.opt_cache := Some c |} =>
                         if String.eqb c "" then "default" else c
                     | _ => "default"
                     end;
       req_headers :=
         Some (<[ "Content-Type" := "application/json" ]>
                 (<[ "authorization" := ("Bearer " ++ Zenblog.opt_accessToken o)%string ]>
                    ∅)) |})
     :: nil)%list.
Proof.
  intros W T. apply truthy_str_true in T. unfold trace_of.
  rewrite call_list_run by assumption. rewrite fetcher_then_log_fetches.
  unfold Zenblog.fetch_url, Zenblog.reqOpts, Zenblog.call_opts, Zenblog.cache_or_default,
    Zenblog.spread, Zenblog.headers_or_empty, Zenblog.auth_headers, zenblog_api,
    or_str, truthy_str.
  cbn [Zenblog.api Zenblog.accessToken method cache req_headers].
  rewrite (left_id_L ∅ (∪)).
  destruct (Zenblog._url o) as [u |]; [destruct (String.eqb u "") |];
    destruct opts as [[[c |]] |]; cbn [Zenblog.opt_cache];
    try destruct (String.eqb c ""); reflexivity.
Qed.

Lemma list_request_witness :
  fetches (trace_of (call_list with_token (Some {| Zenblog.opt_cache := Some "no-store" |}))
             offline) =
  (("https://api.zenblog.com/posts",
    {| method := Some "GET";
       cache := Some "no-store";
       req_headers :=
         Some (<[ "Content-Type" := "application/json" ]>
                 (<[ "authorization" := "Bearer secret" ]> ∅)) |})
     :: nil)%list.
Proof.
  apply (list_request offline with_token (Some {| Zenblog.opt_cache := Some "no-store" |})).
  - reflexivity.
  - discriminate.
Defined.

(** [getAll] on a public client sends exactly one request, whatever the
    transport then does: a GET to [blogId/posts] under the configured
    endpoint, the public endpoint standing in for a missing or empty
    [_url]; with the JSON content type as its only header (no credentials)
    and no cache directive. *)
Theorem getAll_request (w : World) (o : Public.CreateClientOpts) :
  Public.blogId o <> "" ->
  fetches (trace_of (call_getAll o) w) =
  (((match Public._url o with
     | Some u => if String.eqb u "" then "https://zenblog.com/api/public" else u
     | None => "https://zenblog.com/api/public"
     end ++ "/" ++ Public.blogId o ++ "/posts")%string,
    {| method := Some "GET";
       cache := None;
       req_headers := Some {[ "Content-Type" := "application/json" ]} |})
     :: nil)%list.
Proof.
  intros B. apply truthy_str_true in B. unfold trace_of.
  rewrite call_getAll_run by exact B. cbv beta zeta. cbn [fst].
  rewrite fetches_app, getAll_fetches.
  unfold Public.public_url, Public.getConfig, truthy_str.
  destruct (Public._url o) as [u |]; [destruct (String.eqb u "") |];
    destruct (or_false (Public.debug o)); reflexivity.
Qed.

Lemma getAll_request_witness :
  fetches (trace_of (call_getAll {| Public.blogId := "blog1"; Public._url := Some "";
                                    Public.debug := Some true |}) offline) =
  (("https://zenblog.com/api/public/blog1/posts",
    {| method := Some "GET";
       cache := None;
       req_headers := Some {[ "Content-Type" := "application/json" ]} |})
     :: nil)%list.
Proof.
  apply (getAll_request offline {| Public.blogId := "blog1"; Public._url := Some "";
                                   Public.debug := Some true |}).
  discriminate.
Defined.

(** ** Normalisation *)

Lemma normalizePost_fixed p q :
  Public.normalizePost p = Return q -> Public.normalizePost q = Return q.
Proof.
  destruct p; cbn; try discriminate; intros [= <-]; reflexivity.
Qed.

Lemma array_map_fixed xs ys :
  Public.array_map Public.normalizePost xs = Return ys ->
  Public.array_map Public.normalizePost ys = Return ys.
Proof.
  revert ys. induction xs as [| x rest IH]; intros ys; cbn [Public.array_map].
  - intros [= <-]. reflexivity.
  - destruct (Public.normalizePost x) as [y | e] eqn:N; [| discriminate].
    destruct (Public.array_map Public.normalizePost rest) as [zs | e]; [| discriminate].
    intros [= <-]. cbn [Public.array_map].
    rewrite (normalizePost_fixed _ _ N), (IH zs eq_refl). reflexivity.
Qed.

(** Normalising is idempotent: whatever [getAll]'s mapping step returns for
    a parsed body, it returns again, unchanged, when given its own result. *)
Theorem posts_map_idempotent (posts out : jsval) (w w' : World) :
  result_of (Public.posts_map posts) w = Return out ->
  result_of (Public.posts_map out) w' = Return out.
Proof.
  unfold result_of. destruct posts; cbn; try discriminate.
  destruct (Public.array_map Public.normalizePost elems) as [ys | e] eqn:A;
    cbn; [| discriminate].
  intros [= <-]. cbn. rewrite (array_map_fixed _ _ A). reflexivity.
Qed.

Lemma posts_map_idempotent_witness :
  result_of (Public.posts_map
               (JArr (post_summary first_post :: post_summary second_post :: nil)%list))
            offline
  = Return (JArr (post_summary first_post :: post_summary second_post :: nil)%list).
Proof.
  apply (posts_map_idempotent (JArr (first_post :: second_post :: nil)%list) _
           (serving two_posts_200) offline).
  reflexivity.
Defined.

(** ** The subscription header, exactly *)

Lemma subscription_inactive_iff r :
  Zenblog.subscription_inactive r = true <-> inactive_header r.
Proof.
  unfold Zenblog.subscription_inactive, inactive_header.
  destruct (headers_get r "zenblog-subscription-status") as [v |].
  - rewrite String.eqb_eq. split; [intros -> | intros [= ->]]; reflexivity.
  - split; discriminate.
Qed.

(** [list] and [get] throw the subscription error exactly when the response
    body parses as JSON and the subscription header is the exact string
    "inactive"; any other value of the header, or its absence, leaves the
    response to the status check. *)
Theorem subscription_error_iff (r : Response) (w : World) (o : Zenblog.CreateClientOpts)
    (slug : string) (opts : option Zenblog.ReqOpts) (call : M jsval) :
  responds w r ->
  window_defined w = false ->
  Zenblog.opt_accessToken o <> "" ->
  In call (call_list o opts :: call_get o slug opts :: nil)%list ->
  result_of call w = Throw subscription_error <->
  inactive_header r /\ exists j, res_body r = Some j.
Proof.
  intros R W T Hin. rewrite (zenblog_result_table r w o slug opts call R W T Hin).
  rewrite <- subscription_inactive_iff.
  destruct (res_body r) as [j |].
  - destruct (Zenblog.subscription_inactive r).
    + split; [eauto | reflexivity].
    + split.
      * destruct (res_ok r); [discriminate |].
        intros H. apply Throw_inj in H. symmetry in H.
        destruct (request_error_not_subscription H).
      * intros [H _]. discriminate.
  - split; [discriminate | intros [_ [j H]]; discriminate].
Qed.

Lemma subscription_error_iff_witness :
  result_of (call_get with_token "hello" None) (serving inactive_402)
  = Throw subscription_error <->
  inactive_header inactive_402 /\ exists j, res_body inactive_402 = Some j.
Proof.
  apply (subscription_error_iff inactive_402 (serving inactive_402) with_token "hello" None).
  - intros url opts. reflexivity.
  - reflexivity.
  - discriminate.
  - right. left. reflexivity.
Defined.

(** * Image file names *)

Example baseName_example :
  Images.baseName Images.ascii_lower (Some (Images.units "  My Cat -- Photo!.PNG "))
  = Images.units "my-cat-photo-png".
Proof. reflexivity. Qed.

Example fileName_example :
  Images.fileName Images.ascii_lower (Some (Images.units "My Cat")) 1730548800123%N true
  = Images.units "my-cat-800123.webp".
Proof. vm_compute. reflexivity. Qed.

(** ** The steps of the name clean-up *)

Lemma replace_non_alnum_clean s :
  forallb Images.clean_char (Images.replace_non_alnum s) = true.
Proof.
  induction s as [| c rest IH]; [reflexivity |].
  cbn [Images.replace_non_alnum List.map forallb].
  fold (Images.replace_non_alnum rest). rewrite IH, andb_true_r.
  unfold Images.clean_char. destruct (Images.is_alnum c) eqn:A.
  - rewrite A. reflexivity.
  - rewrite orb_true_r. reflexivity.
Qed.

Lemma collapse_hyphens_clean s :
  forallb Images.clean_char s = true ->
  forallb Images.clean_char (Images.collapse_hyphens s) = true.
Proof.
  induction s as [| c rest IH]; [reflexivity |].
  cbn [forallb Images.collapse_hyphens]. intros H.
  apply andb_true_iff in H as [Hc Hr].
  destruct ((c =? Images.hyphen)%N && Images.starts_with_hyphen rest).
  - apply IH, Hr.
  - cbn [forallb]. rewrite Hc, (IH Hr). reflexivity.
Qed.

Lemma strip_first_clean s :
  forallb Images.clean_char s = true ->
  forallb Images.clean_char (Images.strip_first s) = true.
Proof.
  destruct s as [| c rest]; [reflexivity |].
  cbn [Images.strip_first]. intros H.
  destruct (c =? Images.hyphen)%N; [| exact H].
  cbn [forallb] in H. apply andb_true_iff in H as [_ Hr]. exact Hr.
Qed.

Lemma strip_last_clean s :
  forallb Images.clean_char s = true ->
  forallb Images.clean_char (Images.strip_last s) = true.
Proof.
  induction s as [| c rest IH]; [reflexivity |].
  intros H. cbn [forallb] in H. apply andb_true_iff in H as [Hc Hr].
  destruct rest as [| d rest'].
  - cbn. destruct (c =? Images.hyphen)%N; [reflexivity |].
    cbn. rewrite Hc. reflexivity.
  - change (Images.strip_last (c :: d :: rest'))
      with (c :: Images.strip_last (d :: rest'))%list.
    cbn [forallb]. rewrite Hc, (IH Hr). reflexivity.
Qed.

Lemma collapse_hyphens_start s :
  Images.starts_with_hyphen (Images.collapse_hyphens s) = Images.starts_with_hyphen s.
Proof.
  induction s as [| c rest IH]; [reflexivity |].
  cbn [Images.collapse_hyphens Images.starts_with_hyphen].
  destruct (c =? Images.hyphen)%N eqn:C; cbn [andb].
  - destruct (Images.starts_with_hyphen rest) eqn:S.
    + exact IH.
    + cbn. exact C.
  - cbn. exact C.
Qed.

Lemma collapse_hyphens_no_double s :
  Images.double_hyphen (Images.collapse_hyphens s) = false.
Proof.
  induction s as [| c rest IH]; [reflexivity |].
  cbn [Images.collapse_hyphens].
  destruct ((c =? Images.hyphen)%N && Images.starts_with_hyphen rest) eqn:E;
    [exact IH |].
  cbn [Images.double_hyphen]. rewrite collapse_hyphens_start, E, IH. reflexivity.
Qed.

Lemma strip_first_no_double s :
  Images.double_hyphen s = false ->
  Images.double_hyphen (Images.strip_first s) = false /\
  Images.starts_with_hyphen (Images.strip_first s) = false.
Proof.
  destruct s as [| c rest]; [split; reflexivity |].
  cbn [Images.double_hyphen Images.strip_first]. intros H.
  apply orb_false_iff in H as [H1 H2].
  destruct (c =? Images.hyphen)%N eqn:C.
  - cbn [andb] in H1. split; [exact H2 | exact H1].
  - cbn [Images.double_hyphen Images.starts_with_hyphen].
    rewrite C, H2. split; reflexivity.
Qed.

Lemma strip_last_start s :
  Images.starts_with_hyphen s = false ->
  Images.starts_with_hyphen (Images.strip_last s) = false.
Proof.
  destruct s as [| c [| d rest]]; cbn; try reflexivity.
  - intros C. rewrite C. cbn. exact C.
  - intros C. exact C.
Qed.

Lemma strip_last_head_le c s :
  Images.starts_with_hyphen (Images.strip_last (c :: s)) = true ->
  Images.starts_with_hyphen (c :: s) = true.
Proof.
  destruct s as [| d rest]; cbn.
  - destruct (c =? Images.hyphen)%N eqn:C; cbn; [discriminate | rewrite C; discriminate].
  - intros H. exact H.
Qed.

Lemma strip_last_no_double s :
  Images.double_hyphen s = false ->
  Images.double_hyphen (Images.strip_last s) = false /\
  Images.ends_with_hyphen (Images.strip_last s) = false.
Proof.
  induction s as [| c rest IH]; [split; reflexivity |].
  cbn [Images.double_hyphen]. intros H. apply orb_false_iff in H as [H1 H2].
  destruct rest as [| d rest'].
  - cbn. destruct (c =? Images.hyphen)%N eqn:C; cbn; [split; reflexivity |].
    rewrite C. split; reflexivity.
  - change (Images.strip_last (c :: d :: rest'))
      with (c :: Images.strip_last (d :: rest'))%list.
    destruct (IH H2) as [I1 I2]. cbn [Images.double_hyphen]. rewrite I1, orb_false_r.
    split.
    + destruct (c =? Images.hyphen)%N eqn:C; [| reflexivity]. cbn [andb] in *.
      destruct (Images.starts_with_hyphen (Images.strip_last (d :: rest'))) eqn:S;
        [| reflexivity].
      apply strip_last_head_le in S. rewrite S in H1. discriminate.
    + destruct (Images.strip_last (d :: rest')) as [| x xs] eqn:X.
      * cbn. destruct (c =? Images.hyphen)%N eqn:C; [| reflexivity].
        cbn [andb] in H1. destruct rest' as [| d' r'].
        -- cbn in X. destruct (d =? Images.hyphen)%N eqn:D; [| discriminate].
           cbn in H1. rewrite D in H1. discriminate.
        -- discriminate.
      * exact I2.
Qed.

(** The shape of a base name. *)
Lemma baseName_shape (toLowerCase : list N -> list N) (providedName : option (list N)) :
  forallb Images.clean_char (Images.baseName toLowerCase providedName) = true /\
  Images.double_hyphen (Images.baseName toLowerCase providedName) = false /\
  Images.starts_with_hyphen (Images.baseName toLowerCase providedName) = false /\
  Images.ends_with_hyphen (Images.baseName toLowerCase providedName) = false.
Proof.
  destruct providedName as [[| c rest] |]; try (repeat split; reflexivity).
  cbn [Images.baseName]. unfold Images.trim_hyphens.
  set (s := Images.collapse_hyphens (Images.replace_non_alnum (toLowerCase (c :: rest)%list))).
  assert (C : forallb Images.clean_char s = true)
    by apply collapse_hyphens_clean, replace_non_alnum_clean.
  assert (D : Images.double_hyphen s = false) by apply collapse_hyphens_no_double.
  destruct (strip_first_no_double s D) as [D1 S1].
  destruct (strip_last_no_double _ D1) as [D2 E2].
  split; [apply strip_last_clean, strip_first_clean, C |].
  split; [exact D2 |]. split; [apply strip_last_start, S1 | exact E2].
Qed.

(** Whatever [toLowerCase] does, the base name of an upload is made of
    [a-z], [0-9] and single hyphens only, and neither starts nor ends with a
    hyphen. *)
Theorem baseName_clean (toLowerCase : list N -> list N) (providedName : option (list N)) :
  forallb Images.clean_char (Images.baseName toLowerCase providedName) = true /\
  Images.double_hyphen (Images.baseName toLowerCase providedName) = false /\
  Images.starts_with_hyphen (Images.baseName toLowerCase providedName) = false /\
  Images.ends_with_hyphen (Images.baseName toLowerCase providedName) = false.
Proof. exact (baseName_shape toLowerCase providedName). Qed.

Lemma hyphen_not_alnum c : (c =? Images.hyphen)%N = true -> Images.is_alnum c = false.
Proof. intros H. apply N.eqb_eq in H. subst c. reflexivity. Qed.

Lemma replace_non_alnum_keeps s :
  List.filter Images.is_alnum (Images.replace_non_alnum s) = List.filter Images.is_alnum s.
Proof.
  induction s as [| c rest IH]; [reflexivity |].
  cbn [Images.replace_non_alnum List.map List.filter].
  fold (Images.replace_non_alnum rest).
  destruct (Images.is_alnum c) eqn:A.
  - rewrite A, IH. reflexivity.
  - cbn. exact IH.
Qed.

Lemma collapse_hyphens_keeps s :
  List.filter Images.is_alnum (Images.collapse_hyphens s) = List.filter Images.is_alnum s.
Proof.
  induction s as [| c rest IH]; [reflexivity |].
  cbn [Images.collapse_hyphens List.filter].
  destruct (c =? Images.hyphen)%N eqn:C; cbn [andb].
  - rewrite (hyphen_not_alnum c C).
    destruct (Images.starts_with_hyphen rest); [exact IH |].
    cbn [List.filter]. rewrite (hyphen_not_alnum c C). exact IH.
  - cbn [List.filter]. rewrite IH. reflexivity.
Qed.

Lemma strip_first_keeps s :
  List.filter Images.is_alnum (Images.strip_first s) = List.filter Images.is_alnum s.
Proof.
  destruct s as [| c rest]; [reflexivity |].
  cbn [Images.strip_first]. destruct (c =? Images.hyphen)%N eqn:C; [| reflexivity].
  cbn [List.filter]. rewrite (hyphen_not_alnum c C). reflexivity.
Qed.

Lemma strip_last_keeps s :
  List.filter Images.is_alnum (Images.strip_last s) = List.filter Images.is_alnum s.
Proof.
  induction s as [| c rest IH]; [reflexivity |].
  destruct rest as [| d rest'].
  - cbn. destruct (c =? Images.hyphen)%N eqn:C; [| reflexivity].
    rewrite (hyphen_not_alnum c C). reflexivity.
  - change (Images.strip_last (c :: d :: rest'))
      with (c :: Images.strip_last (d :: rest'))%list.
    cbn [List.filter]. rewrite IH. reflexivity.
Qed.

(** The letters and digits of a base name. *)
Lemma baseName_alnum (toLowerCase : list N -> list N) (name : list N) :
  name <> nil ->
  List.filter Images.is_alnum (Images.baseName toLowerCase (Some name))
  = List.filter Images.is_alnum (toLowerCase name).
Proof.
  intros H. destruct name as [| c rest]; [contradiction |].
  cbn [Images.baseName]. unfold Images.trim_hyphens.
  rewrite strip_last_keeps, strip_first_keeps, collapse_hyphens_keeps.
  apply replace_non_alnum_keeps.
Qed.

(** The clean-up only ever loses separators: the letters and digits of the
    lower-cased name all reach the base name, in their order. *)
Theorem baseName_keeps_alnum (toLowerCase : list N -> list N) (name : list N) :
  name <> nil ->
  List.filter Images.is_alnum (Images.baseName toLowerCase (Some name))
  = List.filter Images.is_alnum (toLowerCase name).
Proof. exact (baseName_alnum toLowerCase name). Qed.

Lemma baseName_keeps_alnum_witness :
  List.filter Images.is_alnum
    (Images.baseName Images.ascii_lower (Some (Images.units "My Cat!")))
  = List.filter Images.is_alnum (Images.ascii_lower (Images.units "My Cat!")).
Proof.
  apply (baseName_keeps_alnum Images.ascii_lower (Images.units "My Cat!")).
  discriminate.
Defined.

Lemma clean_without_alnum s :
  forallb Images.clean_char s = true ->
  List.filter Images.is_alnum s = nil ->
  Images.starts_with_hyphen s = false ->
  s = nil.
Proof.
  destruct s as [| c rest]; [reflexivity |].
  cbn [forallb List.filter Images.starts_with_hyphen]. intros H F S.
  apply andb_true_iff in H as [Hc _]. unfold Images.clean_char in Hc.
  rewrite S, orb_false_r in Hc. rewrite Hc in F. discriminate.
Qed.

(** A provided name is not replaced by "image" when the clean-up leaves
    nothing of it: the base name of a non-empty name is empty exactly when
    the lower-cased name has no letter of [a-z] and no digit, and the file
    name then starts with the hyphen that precedes the time stamp. *)
Theorem baseName_empty_iff (toLowerCase : list N -> list N) (name : list N)
    (now : N) (webp : bool) :
  name <> nil ->
  (Images.baseName toLowerCase (Some name) = nil <->
   List.filter Images.is_alnum (toLowerCase name) = nil) /\
  (List.filter Images.is_alnum (toLowerCase name) = nil ->
   Images.fileName toLowerCase (Some name) now webp
   = (Images.hyphen :: Images.timestamp now ++ Images.units "."
      ++ (if webp then Images.units "webp" else Images.units "jpg"))%list).
Proof.
  intros H.
  assert (E : Images.baseName toLowerCase (Some name) = nil <->
              List.filter Images.is_alnum (toLowerCase name) = nil).
  { rewrite <- (baseName_alnum toLowerCase name H). split.
    - intros ->. reflexivity.
    - intros F. destruct (baseName_shape toLowerCase (Some name)) as (C & _ & S & _).
      apply clean_without_alnum; assumption. }
  split; [exact E |].
  intros F. apply E in F. unfold Images.fileName. rewrite F. reflexivity.
Qed.

Lemma baseName_empty_iff_witness :
  Images.fileName Images.ascii_lower (Some (Images.units "!!!")) 1730548800123%N false
  = Images.units "-800123.jpg".
Proof.
  destruct (baseName_empty_iff Images.ascii_lower (Images.units "!!!")
              1730548800123%N false) as [_ H].
  - discriminate.
  - apply H. reflexivity.
Defined.

Lemma replace_non_alnum_fixed s :
  forallb Images.clean_char s = true -> Images.replace_non_alnum s = s.
Proof.
  induction s as [| c rest IH]; [reflexivity |].
  cbn [forallb Images.replace_non_alnum List.map]. fold (Images.replace_non_alnum rest).
  intros H. apply andb_true_iff in H as [Hc Hr]. rewrite (IH Hr).
  unfold Images.clean_char in Hc. destruct (Images.is_alnum c); [reflexivity |].
  cbn in Hc. apply N.eqb_eq in Hc. rewrite Hc. reflexivity.
Qed.

Lemma collapse_hyphens_fixed s :
  Images.double_hyphen s = false -> Images.collapse_hyphens s = s.
Proof.
  induction s as [| c rest IH]; [reflexivity |].
  cbn [Images.double_hyphen Images.collapse_hyphens]. intros H.
  apply orb_false_iff in H as [H1 H2]. rewrite H1, (IH H2). reflexivity.
Qed.

Lemma strip_first_fixed s :
  Images.starts_with_hyphen s = false -> Images.strip_first s = s.
Proof.
  destruct s as [| c rest]; [reflexivity |]. cbn. intros ->. reflexivity.
Qed.

Lemma strip_last_fixed s :
  Images.ends_with_hyphen s = false -> Images.strip_last s = s.
Proof.
  induction s as [| c rest IH]; [reflexivity |].
  destruct rest as [| d rest'].
  - cbn. intros ->. reflexivity.
  - change (Images.strip_last (c :: d :: rest'))
      with (c :: Images.strip_last (d :: rest'))%list.
    change (Images.ends_with_hyphen (c :: d :: rest'))
      with (Images.ends_with_hyphen (d :: rest')).
    intros H. rewrite (IH H). reflexivity.
Qed.

(** A base name is a fixed point of the clean-up: given back as the
    provided name it comes out unchanged, as long as it is not empty and
    [toLowerCase] leaves strings of [a-z], [0-9] and hyphens alone. *)
Theorem baseName_idempotent (toLowerCase : list N -> list N)
    (providedName : option (list N)) :
  (forall s, forallb Images.clean_char s = true -> toLowerCase s = s) ->
  Images.baseName toLowerCase providedName <> nil ->
  Images.baseName toLowerCase (Some (Images.baseName toLowerCase providedName))
  = Images.baseName toLowerCase providedName.
Proof.
  intros L NE.
  destruct (baseName_shape toLowerCase providedName) as (C & D & S & E).
  destruct (Images.baseName toLowerCase providedName) as [| c rest] eqn:R;
    [contradiction |].
  cbn [Images.baseName]. unfold Images.trim_hyphens.
  rewrite (L _ C), (replace_non_alnum_fixed _ C), (collapse_hyphens_fixed _ D),
    (strip_first_fixed _ S), (strip_last_fixed _ E).
  reflexivity.
Qed.

Lemma ascii_lower_fixes_clean s :
  forallb Images.clean_char s = true -> Images.ascii_lower s = s.
Proof.
  induction s as [| c rest IH]; [reflexivity |].
  cbn [forallb Images.ascii_lower List.map]. fold (Images.ascii_lower rest).
  intros H. apply andb_true_iff in H as [Hc Hr]. rewrite (IH Hr).
  destruct ((65 <=? c)%N && (c <=? 90)%N) eqn:U; [| reflexivity].
  exfalso. unfold Images.clean_char, Images.is_alnum, Images.hyphen in Hc.
  apply andb_true_iff in U as [U1 U2].
  apply N.leb_le in U1, U2.
  apply orb_true_iff in Hc as [Hc | Hc].
  - apply orb_true_iff in Hc as [Hc | Hc]; apply andb_true_iff in Hc as [A1 A2];
      apply N.leb_le in A1, A2; lia.
  - apply N.eqb_eq in Hc. lia.
Qed.

Lemma baseName_idempotent_witness :
  Images.baseName Images.ascii_lower
    (Some (Images.baseName Images.ascii_lower (Some (Images.units "My Cat -- Photo!"))))
  = Images.baseName Images.ascii_lower (Some (Images.units "My Cat -- Photo!")).
Proof.
  apply (baseName_idempotent Images.ascii_lower
           (Some (Images.units "My Cat -- Photo!"))).
  - exact ascii_lower_fixes_clean.
  - discriminate.
Defined.

(** ** The time stamp *)

Lemma to_digits_enough (f1 f2 : nat) (n : N) :
  (n < 10 ^ N.of_nat (S f1))%N ->
  (n < 10 ^ N.of_nat (S f2))%N ->
  Images.to_digits (S f1) n = Images.to_digits (S f2) n.
Proof.
  revert f2 n. induction f1 as [| f1 IH]; intros f2 n H1 H2.
  - cbn [Images.to_digits]. change (10 ^ N.of_nat 1)%N with 10%N in H1.
    apply N.ltb_lt in H1. rewrite H1. reflexivity.
  - cbn [Images.to_digits]. destruct (n <? 10)%N eqn:L; [reflexivity |].
    apply N.ltb_ge in L.
    destruct f2 as [| f2].
    + change (10 ^ N.of_nat 1)%N with 10%N in H2. lia.
    + change ((Images.to_digits (S f1) (n / 10)%N ++ (48 + n mod 10)%N :: nil)%list
              = (Images.to_digits (S f2) (n / 10)%N ++ (48 + n mod 10)%N :: nil)%list).
      f_equal. apply IH.
      * rewrite Nat2N.inj_succ, N.pow_succ_r' in H1.
        apply N.Div0.div_lt_upper_bound. exact H1.
      * rewrite Nat2N.inj_succ, N.pow_succ_r' in H2.
        apply N.Div0.div_lt_upper_bound. exact H2.
Qed.

Lemma number_below_fuel (n : N) :
  (n < 10 ^ N.of_nat (S (N.to_nat (N.log2 n))))%N.
Proof.
  rewrite Nat2N.inj_succ, N2Nat.id.
  destruct (N.eq_dec n 0%N) as [-> | NZ]; [reflexivity |].
  apply N.lt_le_trans with (2 ^ N.succ (N.log2 n))%N.
  - apply N.log2_spec. lia.
  - apply N.pow_le_mono_l. lia.
Qed.

(** [number_toString] never runs out of steps: it satisfies the equations
    of the decimal expansion. *)
Lemma number_toString_small (n : N) :
  (n < 10)%N -> Images.number_toString n = ((48 + n)%N :: nil)%list.
Proof.
  intros H. unfold Images.number_toString. cbn [Images.to_digits].
  apply N.ltb_lt in H. rewrite H. reflexivity.
Qed.

Lemma number_toString_step (n : N) :
  (10 <= n)%N ->
  Images.number_toString n
  = (Images.number_toString (n / 10)%N ++ (48 + n mod 10)%N :: nil)%list.
Proof.
  intros H. unfold Images.number_toString at 1. cbn [Images.to_digits].
  apply N.ltb_ge in H. rewrite H. f_equal.
  unfold Images.number_toString.
  destruct (N.to_nat (N.log2 n)) as [| f] eqn:F.
  - exfalso. pose proof (number_below_fuel n) as B. rewrite F in B.
    change (10 ^ N.of_nat 1)%N with 10%N in B. apply N.ltb_ge in H. lia.
  - apply to_digits_enough.
    + pose proof (number_below_fuel n) as B. rewrite F in B.
      rewrite Nat2N.inj_succ, N.pow_succ_r' in B.
      apply N.Div0.div_lt_upper_bound. exact B.
    + apply number_below_fuel.
Qed.

Lemma slice_last_snoc (k : nat) (s : list N) (d : N) :
  Images.slice_last (S k) (s ++ d :: nil) = (Images.slice_last k s ++ d :: nil)%list.
Proof.
  unfold Images.slice_last. rewrite length_app. cbn [length].
  replace (length s + 1 - S k)%nat with (length s - k)%nat by lia.
  rewrite skipn_app.
  replace (length s - k - length s)%nat with 0%nat by lia. reflexivity.
Qed.

Lemma slice_last_low_digits (k : nat) (n : N) :
  match k with
  | O => True
  | S k' => (10 ^ N.of_nat k' <= n)%N
  end ->
  Images.slice_last k (Images.number_toString n) = Images.low_digits k n.
Proof.
  revert n. induction k as [| k IH]; intros n H.
  - unfold Images.slice_last. rewrite Nat.sub_0_r. apply skipn_all.
  - cbn [Images.low_digits].
    destruct (N.ltb_spec n 10) as [L | L].
    + assert (k = 0%nat) as ->.
      { destruct k as [| k']; [reflexivity |]. exfalso.
        rewrite Nat2N.inj_succ, N.pow_succ_r' in H.
        assert (10 ^ N.of_nat k' <> 0)%N by (apply N.pow_nonzero; lia).
        lia. }
      rewrite (number_toString_small n L). cbn [Images.low_digits].
      rewrite N.mod_small by exact L. reflexivity.
    + rewrite (number_toString_step n L), slice_last_snoc. f_equal.
      apply IH. destruct k as [| k']; [exact I |].
      rewrite Nat2N.inj_succ, N.pow_succ_r' in H.
      apply N.div_le_lower_bound; [lia | exact H].
Qed.

Lemma low_digits_length (k : nat) (n : N) : length (Images.low_digits k n) = k.
Proof.
  revert n. induction k as [| k IH]; intros n; [reflexivity |].
  cbn [Images.low_digits]. rewrite length_app, IH. cbn. lia.
Qed.

Lemma low_digits_are_digits (k : nat) (n : N) :
  forallb (fun c => (48 <=? c)%N && (c <=? 57)%N) (Images.low_digits k n) = true.
Proof.
  revert n. induction k as [| k IH]; intros n; [reflexivity |].
  cbn [Images.low_digits]. rewrite forallb_app, IH. cbn [forallb andb].
  assert (B : (n mod 10 < 10)%N) by (apply N.mod_upper_bound; discriminate).
  rewrite andb_true_r. apply andb_true_iff.
  generalize dependent (n mod 10)%N. intros d B.
  split; apply N.leb_le; lia.
Qed.

Lemma low_digits_add (k : nat) (n m : N) :
  Images.low_digits k (n + 10 ^ N.of_nat k * m)%N = Images.low_digits k n.
Proof.
  revert n m. induction k as [| k IH]; intros n m; [reflexivity |].
  cbn [Images.low_digits]. rewrite Nat2N.inj_succ, N.pow_succ_r'.
  replace (n + 10 * 10 ^ N.of_nat k * m)%N
    with (n + (10 ^ N.of_nat k * m) * 10)%N by lia.
  rewrite N.div_add by lia. rewrite N.Div0.mod_add. rewrite IH. reflexivity.
Qed.

(** Once the clock reading has six digits or more (any time after the
    first hundred seconds of 1970), the time stamp is the six low decimal
    digits of the reading, leading zeros kept. *)
Theorem timestamp_low_digits (now : N) :
  (100000 <= now)%N ->
  Images.timestamp now = Images.low_digits 6 now /\
  length (Images.timestamp now) = 6%nat /\
  forallb (fun c => (48 <=? c)%N && (c <=? 57)%N) (Images.timestamp now) = true.
Proof.
  intros H.
  assert (E : Images.timestamp now = Images.low_digits 6 now).
  { unfold Images.timestamp. apply slice_last_low_digits. exact H. }
  rewrite E. split; [reflexivity |].
  split; [apply low_digits_length | apply low_digits_are_digits].
Qed.

Lemma timestamp_low_digits_witness :
  Images.timestamp 1730548000042%N = Images.units "000042" /\
  length (Images.timestamp 1730548000042%N) = 6%nat /\
  forallb (fun c => (48 <=? c)%N && (c <=? 57)%N) (Images.timestamp 1730548000042%N) = true.
Proof.
  apply (timestamp_low_digits 1730548000042%N). vm_compute. discriminate.
Defined.

(** File names repeat: two uploads with the same provided name and the same
    format whose clock readings differ by a multiple of 1000000 ms (about
    sixteen minutes and forty seconds) get the same file name. *)
Theorem fileName_repeats (toLowerCase : list N -> list N) (providedName : option (list N))
    (now k : N) (webp : bool) :
  (100000 <= now)%N ->
  Images.fileName toLowerCase providedName (now + 1000000 * k)%N webp
  = Images.fileName toLowerCase providedName now webp.
Proof.
  intros H. unfold Images.fileName, Images.timestamp.
  rewrite (slice_last_low_digits 6 now) by exact H.
  rewrite (slice_last_low_digits 6 (now + 1000000 * k)%N) by (cbn; lia).
  change 1000000%N with (10 ^ N.of_nat 6)%N. rewrite low_digits_add. reflexivity.
Qed.

Lemma fileName_repeats_witness :
  Images.fileName Images.ascii_lower (Some (Images.units "My Cat"))
    (1730548800123 + 1000000 * 1)%N false
  = Images.fileName Images.ascii_lower (Some (Images.units "My Cat")) 1730548800123%N false.
Proof.
  apply (fileName_repeats Images.ascii_lower (Some (Images.units "My Cat"))
           1730548800123%N 1%N false).
  vm_compute. discriminate.
Defined.
